(** * StreamHandler: the TradingView websocket session handler

    A shallow embedding of
    [tradingview_scraper/symbols/stream/stream_handler.py] and the
    properties of its framing, session identifiers, token resolution and
    initialization sequence.

    Python values are modelled as follows.
    - A [str] is a sequence of Unicode code points: [pystr := list N];
      [len] is [length].
    - The values handed to [json.dumps] are [None], [bool], [int], [str],
      [list] and [dict] with [str] keys (type [value]).  Floats are left out.
    - Exceptions are values of type [exn], with the class hierarchy of the
      built-in, [requests] and [websocket] exception classes the module can
      meet.
    - The three collaborators ([secrets], [requests], the websocket
      transport) are oracles gathered in a record [Env]; what the program
      does to them is recorded in the [State]. *)

From Stdlib Require Import List NArith ZArith Bool Ascii String Lia.
From Stdlib Require Import Decimal DecimalN RelationClasses.
Import ListNotations.

Local Open Scope N_scope.

Set Warnings "-register-all".

(* ================================================================== *)
(** ** Python strings *)

Definition pychar := N.
Definition pystr := list pychar.

(** An ASCII literal as a Python string. *)
Definition lit (s : string) : pystr :=
  map N_of_ascii (list_ascii_of_string s).

Definition dquote : pychar := 34.
Definition backslash : pychar := 92.

(** [quoted s] is [s] between two double quotes. *)
Definition quoted (s : string) : pystr := dquote :: lit s ++ [dquote].

(** Python truthiness of a [str] and of an optional [str]. *)
Definition truthy (s : pystr) : bool :=
  match s with [] => false | _ :: _ => true end.

Definition truthy_opt (o : option pystr) : bool :=
  match o with None => false | Some s => truthy s end.

(** *** Decimal rendering, as [str(int)] and the [{n}] of an f-string *)

Fixpoint uint_digits (d : Decimal.uint) : pystr :=
  match d with
  | Nil => []
  | D0 d => 48 :: uint_digits d
  | D1 d => 49 :: uint_digits d
  | D2 d => 50 :: uint_digits d
  | D3 d => 51 :: uint_digits d
  | D4 d => 52 :: uint_digits d
  | D5 d => 53 :: uint_digits d
  | D6 d => 54 :: uint_digits d
  | D7 d => 55 :: uint_digits d
  | D8 d => 56 :: uint_digits d
  | D9 d => 57 :: uint_digits d
  end.

Definition str_of_N (n : N) : pystr := uint_digits (N.to_uint n).

Definition str_of_Z (z : Z) : pystr :=
  if (z <? 0)%Z then 45 :: str_of_N (Z.abs_N z) else str_of_N (Z.to_N z).

Definition len (s : pystr) : N := N.of_nat (List.length s).

(* ================================================================== *)
(** ** [json.dumps]

    The encoder of the standard library with [ensure_ascii=True] (the
    default) and the separators given by the caller. *)

Inductive value :=
| PyNone
| PyBool (b : bool)
| PyInt (z : Z)
| PyStr (s : pystr)
| PyList (l : list value)
| PyDict (d : list (pystr * value)).

(** [ESCAPE_ASCII]: the characters that are replaced, which are the
    backslash, the double quote and everything outside space..tilde. *)
Definition ESCAPE_ASCII (c : pychar) : bool :=
  (c =? backslash) || (c =? dquote) || negb ((32 <=? c) && (c <=? 126)).

Definition hex_digit (n : N) : pychar :=
  if n <? 10 then 48 + n else 87 + n.

(** Four lowercase hexadecimal digits: the format [04x] of [n < 0x10000]. *)
Definition hex4 (n : N) : pystr :=
  [ hex_digit (N.shiftr n 12 mod 16); hex_digit (N.shiftr n 8 mod 16);
    hex_digit (N.shiftr n 4 mod 16); hex_digit (n mod 16) ].

Definition u_escape (n : N) : pystr := backslash :: 117 :: hex4 n.

(** [ESCAPE_DCT]: the short escapes; the other control characters are
    filled in with their [\u00XX] form. *)
Definition ESCAPE_DCT (c : pychar) : option pystr :=
  if c =? backslash then Some [backslash; backslash]
  else if c =? dquote then Some [backslash; dquote]
  else if c =? 8 then Some [backslash; 98]
  else if c =? 12 then Some [backslash; 102]
  else if c =? 10 then Some [backslash; 110]
  else if c =? 13 then Some [backslash; 114]
  else if c =? 9 then Some [backslash; 116]
  else if c <? 32 then Some (u_escape c)
  else None.

Definition replace (c : pychar) : pystr :=
  match ESCAPE_DCT c with
  | Some e => e
  | None =>
      if c <? 65536 then u_escape c
      else
        let n := c - 65536 in
        let s1 := N.lor 55296 (N.land (N.shiftr n 10) 1023) in
        let s2 := N.lor 56320 (N.land n 1023) in
        u_escape s1 ++ u_escape s2
  end.

Definition escape_char (c : pychar) : pystr :=
  if ESCAPE_ASCII c then replace c else [c].

Definition py_encode_basestring_ascii (s : pystr) : pystr :=
  dquote :: flat_map escape_char s ++ [dquote].

Fixpoint join (sep : pystr) (parts : list pystr) : pystr :=
  match parts with
  | [] => []
  | p :: ps =>
      match ps with
      | [] => p
      | _ :: _ => p ++ sep ++ join sep ps
      end
  end.

Section Dumps.
Variables item_separator key_separator : pystr.

Fixpoint dumps (v : value) : pystr :=
  match v with
  | PyNone => lit "null"
  | PyBool true => lit "true"
  | PyBool false => lit "false"
  | PyInt z => str_of_Z z
  | PyStr s => py_encode_basestring_ascii s
  | PyList l => lit "[" ++ join item_separator (map dumps l) ++ lit "]"
  | PyDict d =>
      lit "{"
      ++ join item_separator
           (map (fun kv =>
                   match kv with
                   | (k, x) =>
                       py_encode_basestring_ascii k ++ key_separator
                       ++ dumps x
                   end) d)
      ++ lit "}"
  end.
End Dumps.

(* ================================================================== *)
(** ** Message framing *)

Definition prepend_header (message : pystr) : pystr :=
  let message_length := len message in
  lit "~m~" ++ str_of_N message_length ++ lit "~m~" ++ message.

Definition construct_message (func : pystr) (param_list : list value) : pystr :=
  dumps (lit ",") (lit ":")
        (PyDict [(lit "m", PyStr func); (lit "p", PyList param_list)]).

Definition create_message (func : pystr) (param_list : list value) : pystr :=
  prepend_header (construct_message func param_list).

Definition _get_quote_fields : list value :=
  map (fun s => PyStr (lit s))
    [ "ch"; "chp"; "current_session"; "description"; "local_description";
      "language"; "exchange"; "fractional"; "is_tradable"; "lp";
      "lp_time"; "minmov"; "minmove2"; "original_name"; "pricescale";
      "pro_name"; "short_name"; "type"; "update_mode"; "volume";
      "currency_code"; "rchp"; "rtc" ]%string.

(* ================================================================== *)
(** ** Exceptions

    The classes that the built-ins, [requests] and [websocket] can raise
    here, with their base classes.  [ConnectionError] and [TimeoutError]
    are the built-in classes; the classes of [requests] with the same
    short names are different classes. *)

Inductive exc_class :=
| BaseException | KeyboardInterrupt | Exception
| AttributeError | IndexError | TypeError | ValueError
| UnicodeError | UnicodeEncodeError
| OSError | ConnectionError | BrokenPipeError | ConnectionResetError
| ConnectionRefusedError | ConnectionAbortedError | TimeoutError
| WebSocketException | WebSocketConnectionClosedException
| WebSocketTimeoutException | WebSocketBadStatusException
| WebSocketAddressException
| RequestException | requests_HTTPError | requests_ConnectionError
| requests_Timeout | requests_ConnectTimeout | requests_ReadTimeout
| requests_SSLError | requests_TooManyRedirects.

Definition exc_class_eq_dec (a b : exc_class) : {a = b} + {a <> b}.
Proof. decide equality. Defined.

Definition exc_class_eqb (a b : exc_class) : bool :=
  if exc_class_eq_dec a b then true else false.

Definition bases (c : exc_class) : list exc_class :=
  match c with
  | BaseException => []
  | KeyboardInterrupt | Exception => [BaseException]
  | AttributeError | IndexError | TypeError | ValueError | OSError
  | WebSocketException => [Exception]
  | UnicodeError => [ValueError]
  | UnicodeEncodeError => [UnicodeError]
  | ConnectionError | TimeoutError | RequestException => [OSError]
  | BrokenPipeError | ConnectionResetError | ConnectionRefusedError
  | ConnectionAbortedError => [ConnectionError]
  | WebSocketConnectionClosedException | WebSocketTimeoutException
  | WebSocketBadStatusException | WebSocketAddressException =>
      [WebSocketException]
  | requests_HTTPError | requests_ConnectionError | requests_Timeout
  | requests_TooManyRedirects => [RequestException]
  | requests_ConnectTimeout => [requests_ConnectionError; requests_Timeout]
  | requests_ReadTimeout => [requests_Timeout]
  | requests_SSLError => [requests_ConnectionError]
  end.

Fixpoint issubclass_depth (depth : nat) (c d : exc_class) : bool :=
  exc_class_eqb c d
  || match depth with
     | O => false
     | S k => existsb (fun b => issubclass_depth k b d) (bases c)
     end.

(** No class above is more than five steps below [BaseException]. *)
Definition issubclass : exc_class -> exc_class -> bool := issubclass_depth 5.

(** An exception instance: its class and its [str()]. *)
Record exn := mkExn { exc_type : exc_class; exc_str : pystr }.

(** [isinstance(e, (c1, ..., cn))], the test of an [except] clause. *)
Definition isinstance (e : exn) (classes : list exc_class) : bool :=
  existsb (issubclass (exc_type e)) classes.

Inductive outcome (A : Type) :=
| Returns (a : A)
| Raises (e : exn).
Arguments Returns {A} a.
Arguments Raises {A} e.

Definition returned {A} (o : outcome A) : bool :=
  match o with Returns _ => true | Raises _ => false end.

(* ================================================================== *)
(** ** The collaborators and the state *)

Definition dict := list (pystr * pystr).

(** What [requests.get] hands back. *)
Record Response := mkResponse {
  status_code : N;
  reason : pystr;
  url : pystr;
  text : pystr
}.

(** The handle returned by [create_connection]. *)
Record WebSocket := mkWebSocket { ws_url : pystr; ws_header : dict }.

(** The outside world, as oracles.
    - [entropy i] decides the [i]-th call of [secrets.choice]: the index
      chosen is [entropy i] modulo the length of the sequence.  One
      oracle value stands for one call; the raw values that the library
      draws, rejects and draws again inside a call are not modelled;
    - [requests_get url cookies] is what the GET does;
    - [create_connection url header] is [None] when the connection opens
      and the exception raised otherwise;
    - [ws_send n message] is what the [n]-th call of [send] on the
      connection does with [message]: [None] when it returns. *)
Record Env := mkEnv {
  entropy : nat -> N;
  requests_get : pystr -> dict -> outcome Response;
  create_connection : pystr -> dict -> option exn;
  ws_send : nat -> pystr -> option exn
}.

(** The calls made on the transport, oldest first.  [OpClose] is the
    [close] of the connection. *)
Inductive transport_op :=
| OpConnect (url : pystr) (header : dict)
| OpSend (message : pystr)
| OpClose.

Inductive level := DEBUG | INFO | ERROR.

(** The attributes of [self] (absent until assigned) and the record of
    what has been done to the world. *)
Record State := mkState {
  request_header : option dict;
  ws : option WebSocket;
  quote_session : option pystr;
  chart_session : option pystr;
  drawn : nat;
  http_calls : list (pystr * dict);
  transport : list transport_op;
  log : list (level * pystr)
}.

Definition sent (st : State) : list pystr :=
  flat_map (fun op => match op with OpSend m => [m] | _ => [] end)
           (transport st).

(** A state-and-exception monad for the methods. *)
Definition M (A : Type) := State -> outcome A * State.

Definition ret {A} (a : A) : M A := fun st => (Returns a, st).

Definition raise {A} (e : exn) : M A := fun st => (Raises e, st).

Definition bind {A B} (c : M A) (k : A -> M B) : M B :=
  fun st =>
    match c st with
    | (Returns a, st') => k a st'
    | (Raises e, st') => (Raises e, st')
    end.

Notation "x <- c ;; k" := (bind c (fun x => k))
  (at level 61, c at next level, right associativity).
Notation "c ;; k" := (bind c (fun _ => k))
  (at level 61, right associativity).

(** [try: body except classes as e: handler e]. *)
Definition try_except {A} (body : M A) (classes : list exc_class)
           (handler : exn -> M A) : M A :=
  fun st =>
    match body st with
    | (Returns a, st') => (Returns a, st')
    | (Raises e, st') =>
        if isinstance e classes then handler e st' else (Raises e, st')
    end.

(** One more entry in the log, one more call on the transport, one more
    GET. *)
Definition record_log (entry : level * pystr) (st : State) : State :=
  mkState (request_header st) (ws st) (quote_session st) (chart_session st)
          (drawn st) (http_calls st) (transport st) (log st ++ [entry]).

Definition record_op (op : transport_op) (st : State) : State :=
  mkState (request_header st) (ws st) (quote_session st) (chart_session st)
          (drawn st) (http_calls st) (transport st ++ [op]) (log st).

Definition record_get (call : pystr * dict) (st : State) : State :=
  mkState (request_header st) (ws st) (quote_session st) (chart_session st)
          (drawn st) (http_calls st ++ [call]) (transport st) (log st).

Definition logging (lvl : level) (msg : pystr) : M unit :=
  fun st => (Returns tt, record_log (lvl, msg) st).

Definition set_request_header (h : dict) : M unit :=
  fun st =>
    (Returns tt,
     mkState (Some h) (ws st) (quote_session st) (chart_session st)
             (drawn st) (http_calls st) (transport st) (log st)).

Definition set_ws (c : WebSocket) : M unit :=
  fun st =>
    (Returns tt,
     mkState (request_header st) (Some c) (quote_session st) (chart_session st)
             (drawn st) (http_calls st) (transport st) (log st)).

Definition set_quote_session (s : pystr) : M unit :=
  fun st =>
    (Returns tt,
     mkState (request_header st) (ws st) (Some s) (chart_session st)
             (drawn st) (http_calls st) (transport st) (log st)).

Definition set_chart_session (s : pystr) : M unit :=
  fun st =>
    (Returns tt,
     mkState (request_header st) (ws st) (quote_session st) (Some s)
             (drawn st) (http_calls st) (transport st) (log st)).

(** Reading an attribute of [self] that was never assigned. *)
Definition attribute_error (name : string) : exn :=
  mkExn AttributeError
        (lit "'StreamHandler' object has no attribute '" ++ lit name ++ lit "'").

Definition get_request_header : M dict :=
  fun st =>
    match request_header st with
    | Some h => (Returns h, st)
    | None => (Raises (attribute_error "request_header"), st)
    end.

Definition get_ws : M WebSocket :=
  fun st =>
    match ws st with
    | Some c => (Returns c, st)
    | None => (Raises (attribute_error "ws"), st)
    end.

(* ================================================================== *)
(** ** Token pattern

    [re.search] with the pattern that is a double quote, [auth_token], a
    double quote, a colon, a double quote, then the group [(.+?)] and a
    closing double quote.  The dot does not match a newline. *)

Fixpoint strip_prefix (p s : pystr) : option pystr :=
  match p, s with
  | [], _ => Some s
  | _ :: _, [] => None
  | a :: p', b :: s' => if a =? b then strip_prefix p' s' else None
  end.

(** The lazy group once it holds the characters [acc] (last one first):
    it stops at the first double quote and fails on a newline. *)
Fixpoint lazy_group (acc s : pystr) : option pystr :=
  match s with
  | [] => None
  | c :: s' =>
      if c =? dquote then Some (List.rev acc)
      else if c =? 10 then None
      else lazy_group (c :: acc) s'
  end.

(** The group takes at least one character, whatever it is but a newline. *)
Definition group1 (s : pystr) : option pystr :=
  match s with
  | [] => None
  | c :: s' => if c =? 10 then None else lazy_group [c] s'
  end.

Definition auth_token_prefix : pystr := quoted "auth_token" ++ lit ":" ++ [dquote].

Definition match_here (s : pystr) : option pystr :=
  match strip_prefix auth_token_prefix s with
  | Some rest => group1 rest
  | None => None
  end.

(** The leftmost match; the result is [match.group(1)]. *)
Fixpoint re_search_auth_token (s : pystr) : option pystr :=
  match match_here s with
  | Some g => Some g
  | None =>
      match s with
      | [] => None
      | _ :: s' => re_search_auth_token s'
      end
  end.

(* ================================================================== *)
(** ** The methods of [StreamHandler] *)

Definition ascii_lowercase : pystr := lit "abcdefghijklmnopqrstuvwxyz".

Definition unauthorized_user_token : pystr := lit "unauthorized_user_token".

Definition disclaimer_url : pystr := lit "https://www.tradingview.com/disclaimer/".

Definition REQUEST_HEADER : dict :=
  [ (lit "Accept-Encoding", lit "gzip, deflate, br, zstd");
    (lit "Accept-Language", lit "en-US,en;q=0.9,fa;q=0.8");
    (lit "Cache-Control", lit "no-cache");
    (lit "Connection", lit "Upgrade");
    (lit "Host", lit "data.tradingview.com");
    (lit "Origin", lit "https://www.tradingview.com");
    (lit "Pragma", lit "no-cache");
    (lit "Sec-WebSocket-Extensions",
     lit "permessage-deflate; client_max_window_bits");
    (lit "Upgrade", lit "websocket");
    (lit "User-Agent",
     lit "Mozilla/5.0 (Windows NT 6.3; Win64; x64) AppleWebKit/537.36 "
     ++ lit "(KHTML, like Gecko) Chrome/107.0.0.0 Safari/537.36") ].

(** [Response.raise_for_status] of [requests]: an [HTTPError] for the
    status codes 400 to 599, nothing otherwise. *)
Definition raise_for_status (r : Response) : M unit :=
  let describe kind :=
    str_of_N (status_code r) ++ lit kind ++ reason r ++ lit " for url: "
    ++ url r in
  if (400 <=? status_code r) && (status_code r <? 500)
  then raise (mkExn requests_HTTPError (describe " Client Error: "%string))
  else if (500 <=? status_code r) && (status_code r <? 600)
  then raise (mkExn requests_HTTPError (describe " Server Error: "%string))
  else ret tt.

Fixpoint repeatM {A} (n : nat) (c : M A) : M (list A) :=
  match n with
  | O => ret []
  | S k => x <- c ;; xs <- repeatM k c ;; ret (x :: xs)
  end.

Section Methods.
Variable E : Env.

(** [secrets.choice(seq)]: [seq[randbelow(len(seq))]].  The index that
    [randbelow] settles on in the [i]-th call is [entropy i] brought
    into range; [drawn] counts the calls, not the raw values that the
    library consumes. *)
Definition secrets_choice (seq : pystr) : M pychar :=
  fun st =>
    match seq with
    | [] =>
        (Raises (mkExn IndexError (lit "Cannot choose from an empty sequence")),
         st)
    | _ :: _ =>
        let i := entropy E (drawn st) mod len seq in
        (Returns (nth (N.to_nat i) seq 0),
         mkState (request_header st) (ws st) (quote_session st)
                 (chart_session st) (S (drawn st)) (http_calls st)
                 (transport st) (log st))
    end.

Definition requests_get_call (u : pystr) (cookies : dict) : M Response :=
  fun st =>
    (requests_get E u cookies, record_get (u, cookies) st).

Definition create_connection_call (u : pystr) (header : dict) : M WebSocket :=
  fun st =>
    ((match create_connection E u header with
      | None => Returns (mkWebSocket u header)
      | Some e => Raises e
      end),
     record_op (OpConnect u header) st).

Definition ws_send_call (c : WebSocket) (message : pystr) : M unit :=
  fun st =>
    ((match ws_send E (List.length (sent st)) message with
      | None => Returns tt
      | Some e => Raises e
      end),
     record_op (OpSend message) st).

Definition _get_auth_token (session_id : pystr) : M (option pystr) :=
  try_except
    (response <- requests_get_call disclaimer_url
                   [(lit "sessionid", session_id)] ;;
     raise_for_status response ;;
     ret (re_search_auth_token (text response)))
    [RequestException]
    (fun e =>
       logging ERROR
         (lit "HTTP request failed while getting auth token: " ++ exc_str e) ;;
       ret None).

Definition generate_session (prefix : pystr) : M pystr :=
  random_string <- repeatM 12 (secrets_choice ascii_lowercase) ;;
  ret (prefix ++ random_string).

Definition send_message (func : pystr) (args : list value) : M unit :=
  let message := create_message func args in
  logging DEBUG (lit "Sending message: " ++ message) ;;
  try_except
    (c <- get_ws ;; ws_send_call c message)
    [ConnectionError; TimeoutError]
    (fun e => logging ERROR (lit "Failed to send message: " ++ exc_str e)).

Definition _initialize_sessions (quote_session chart_session auth_token : pystr)
  : M unit :=
  send_message (lit "set_auth_token") [PyStr auth_token] ;;
  send_message (lit "set_locale") [PyStr (lit "en"); PyStr (lit "US")] ;;
  send_message (lit "chart_create_session")
               [PyStr chart_session; PyStr (lit "")] ;;
  send_message (lit "quote_create_session") [PyStr quote_session] ;;
  send_message (lit "quote_set_fields")
               (PyStr quote_session :: _get_quote_fields) ;;
  send_message (lit "quote_hibernate_all") [PyStr quote_session].

Definition _initialize (auth_token : pystr) : M unit :=
  quote_session <- generate_session (lit "qs_") ;;
  chart_session <- generate_session (lit "cs_") ;;
  logging INFO (lit "Quote session generated: " ++ quote_session
                ++ lit ", Chart session generated: " ++ chart_session) ;;
  _initialize_sessions quote_session chart_session auth_token ;;
  set_quote_session quote_session ;;
  set_chart_session chart_session.

(** The first statements of [__init__]: the token is the sentinel, unless
    [session_id] is truthy and [_get_auth_token] gives a truthy token;
    when it gives none, an error is logged. *)
Definition choose_auth_token (session_id : option pystr) : M pystr :=
  match session_id with
  | Some sid =>
      if truthy sid then
        token <- _get_auth_token sid ;;
        if truthy_opt token then
          match token with
          | Some t => ret t
          | None => ret unauthorized_user_token
          end
        else
          logging ERROR
            (lit "Failed to get auth token. Connecting as unauthorized user.") ;;
          ret unauthorized_user_token
      else ret unauthorized_user_token
  | None => ret unauthorized_user_token
  end.

Definition __init__ (websocket_url : pystr) (session_id : option pystr)
  : M unit :=
  auth_token <- choose_auth_token session_id ;;
  set_request_header REQUEST_HEADER ;;
  header <- get_request_header ;;
  c <- create_connection_call websocket_url header ;;
  set_ws c ;;
  _initialize auth_token.

(** [StreamHandler(websocket_url, session_id)]: [__init__] on a new
    object, none of whose attributes is assigned. *)
Definition new_object (st : State) : State :=
  mkState None None None None
          (drawn st) (http_calls st) (transport st) (log st).

Definition StreamHandler (websocket_url : pystr) (session_id : option pystr)
  : M unit :=
  fun st => __init__ websocket_url session_id (new_object st).

End Methods.

(* ================================================================== *)
(** ** Observations used to state the properties *)

(** *** Reading a frame back, as the peer does *)

Definition is_digit (c : pychar) : bool := (48 <=? c) && (c <=? 57).

Definition digit_cons (c : pychar) (d : Decimal.uint) : Decimal.uint :=
  match c with
  | 48 => D0 d | 49 => D1 d | 50 => D2 d | 51 => D3 d | 52 => D4 d
  | 53 => D5 d | 54 => D6 d | 55 => D7 d | 56 => D8 d | _ => D9 d
  end.

(** The longest run of decimal digits at the head of [s], and what follows. *)
Fixpoint read_uint (s : pystr) : Decimal.uint * pystr :=
  match s with
  | [] => (Nil, [])
  | c :: s' =>
      if is_digit c
      then let (d, rest) := read_uint s' in (digit_cons c d, rest)
      else (Nil, s)
  end.

(** The length field and the payload of a frame: the marker, a decimal
    number, the marker again, and the rest. *)
Definition read_frame (s : pystr) : option (N * pystr) :=
  match strip_prefix (lit "~m~") s with
  | None => None
  | Some s1 =>
      let (d, s2) := read_uint s1 in
      match strip_prefix (lit "~m~") s2 with
      | None => None
      | Some payload => Some (N.of_uint d, payload)
      end
  end.

(** *** Where the characters of a JSON text stand *)

Inductive lex := Outside | InString | Escaped.

(** JSON whitespace: space, tab, line feed, carriage return. *)
Definition is_space (c : pychar) : bool :=
  (c =? 32) || (c =? 9) || (c =? 10) || (c =? 13).

(** One character of a JSON text; [None] when it is whitespace outside a
    string literal. *)
Definition lex_step (q : lex) (c : pychar) : option lex :=
  match q with
  | Outside =>
      if is_space c then None
      else if c =? dquote then Some InString
      else Some Outside
  | InString =>
      if c =? backslash then Some Escaped
      else if c =? dquote then Some Outside
      else Some InString
  | Escaped => Some InString
  end.

Fixpoint lex_run (q : lex) (s : pystr) : option lex :=
  match s with
  | [] => Some q
  | c :: s' =>
      match lex_step q c with
      | Some q' => lex_run q' s'
      | None => None
      end
  end.

(** No whitespace between the tokens, and every string literal closed. *)
Definition compact (s : pystr) : Prop := lex_run Outside s = Some Outside.

(** Printable ASCII: one character is one byte. *)
Definition printable (c : pychar) : Prop := 32 <= c <= 126.

(** A character that is neither whitespace, nor a quote, nor a backslash. *)
Definition solid (c : pychar) : Prop :=
  33 <= c <= 126 /\ c <> dquote /\ c <> backslash.

Definition is_lowercase (c : pychar) : Prop := 97 <= c <= 122.

(** The compact separators of [construct_message]. *)
Definition compact_dumps : value -> pystr := dumps (lit ",") (lit ":").

(** *** Induction on values, through the lists and dicts they hold *)

Section ValueInduction.
Variable P : value -> Prop.
Hypothesis case_none : P PyNone.
Hypothesis case_bool : forall b, P (PyBool b).
Hypothesis case_int : forall z, P (PyInt z).
Hypothesis case_str : forall s, P (PyStr s).
Hypothesis case_list : forall l, Forall P l -> P (PyList l).
Hypothesis case_dict :
  forall d, Forall (fun kv => P (snd kv)) d -> P (PyDict d).

Fixpoint value_induction (v : value) : P v :=
  match v with
  | PyNone => case_none
  | PyBool b => case_bool b
  | PyInt z => case_int z
  | PyStr s => case_str s
  | PyList l =>
      case_list l
        (list_ind (Forall P) (Forall_nil P)
           (fun x _ rest => Forall_cons x (value_induction x) rest) l)
  | PyDict d =>
      case_dict d
        (list_ind (Forall (fun kv => P (snd kv))) (Forall_nil _)
           (fun kv _ rest =>
              Forall_cons kv (value_induction (snd kv)) rest) d)
  end.
End ValueInduction.

(** *** What the specification lists *)

(** The payload of the locale message, written out. *)
Definition set_locale_json : pystr :=
  lit "{" ++ quoted "m" ++ lit ":" ++ quoted "set_locale" ++ lit ","
  ++ quoted "p" ++ lit ":[" ++ quoted "en" ++ lit "," ++ quoted "US"
  ++ lit "]}".

(** The quote fields of the glossary. *)
Definition spec_quote_fields : list string :=
  [ "ch"; "chp"; "current_session"; "description"; "local_description";
    "language"; "exchange"; "fractional"; "is_tradable"; "lp"; "lp_time";
    "minmov"; "minmove2"; "original_name"; "pricescale"; "pro_name";
    "short_name"; "type"; "update_mode"; "volume"; "currency_code"; "rchp";
    "rtc" ]%string.

(** The initialization sequence of the specification: six framed
    messages, in this order. *)
Definition spec_initialization_sequence (token quoteSession chartSession : pystr)
  : list pystr :=
  [ create_message (lit "set_auth_token") [PyStr token];
    create_message (lit "set_locale") [PyStr (lit "en"); PyStr (lit "US")];
    create_message (lit "chart_create_session")
                   [PyStr chartSession; PyStr (lit "")];
    create_message (lit "quote_create_session") [PyStr quoteSession];
    create_message (lit "quote_set_fields")
                   (PyStr quoteSession
                    :: map (fun name => PyStr (lit name)) spec_quote_fields);
    create_message (lit "quote_hibernate_all") [PyStr quoteSession] ].

(** *** Relations between states *)

(** [f] has the same value in both states. *)
Definition preserved {X} (f : State -> X) (s s' : State) : Prop := f s' = f s.

(** The later state has the calls of the earlier one, and maybe more. *)
Definition extended {X} (f : State -> list X) (s s' : State) : Prop :=
  exists more, f s' = f s ++ more.

(** Two states that differ at most by the log and by the HTTP calls made. *)
Definition same_but_log (s1 s2 : State) : Prop :=
  request_header s1 = request_header s2
  /\ ws s1 = ws s2
  /\ quote_session s1 = quote_session s2
  /\ chart_session s1 = chart_session s2
  /\ drawn s1 = drawn s2
  /\ transport s1 = transport s2.

(** A computation all of whose steps respect the relation [R]. *)
Definition respects {A} (R : State -> State -> Prop) (c : M A) : Prop :=
  forall st, R st (snd (c st)).

(** A computation that does the same from two states that differ by the
    log only. *)
Definition log_blind {A} (c : M A) : Prop :=
  forall s1 s2,
    same_but_log s1 s2 ->
    fst (c s1) = fst (c s2) /\ same_but_log (snd (c s1)) (snd (c s2)).

(** *** Worlds for the examples *)

Definition world0 : State := mkState None None None None 0 [] [] [].

Definition wss_url : pystr := lit "wss://data.tradingview.com/socket.io/websocket".

(** A handler whose connection is open. *)
Definition connected0 : State :=
  mkState (Some REQUEST_HEADER) (Some (mkWebSocket wss_url REQUEST_HEADER))
          None None 0 [] [OpConnect wss_url REQUEST_HEADER] [].

Definition timed_out : exn := mkExn requests_Timeout (lit "timed out").

Definition connection_closed : exn :=
  mkExn WebSocketConnectionClosedException (lit "socket is already closed.").

Definition broken_pipe : exn := mkExn BrokenPipeError (lit "[Errno 32] Broken pipe").

Definition refused : exn :=
  mkExn ConnectionRefusedError (lit "[Errno 111] Connection refused").

(** Everything works; the GET times out. *)
Definition env_quiet : Env :=
  mkEnv (fun i => N.of_nat i) (fun _ _ => Raises timed_out)
        (fun _ _ => None) (fun _ _ => None).

(** The peer has closed the socket: [send] raises the exception of the
    websocket library. *)
Definition env_closed : Env :=
  mkEnv (fun i => N.of_nat i) (fun _ _ => Raises timed_out)
        (fun _ _ => None) (fun _ _ => Some connection_closed).

(** [send] raises a built-in [ConnectionError]. *)
Definition env_broken_pipe : Env :=
  mkEnv (fun i => N.of_nat i) (fun _ _ => Raises timed_out)
        (fun _ _ => None) (fun _ _ => Some broken_pipe).

(** The connection cannot be opened. *)
Definition env_refused : Env :=
  mkEnv (fun i => N.of_nat i) (fun _ _ => Raises timed_out)
        (fun _ _ => Some refused) (fun _ _ => None).

(** A body that holds a token. *)
Definition token_body : pystr :=
  lit "{" ++ quoted "auth_token" ++ lit ":" ++ quoted "abc" ++ lit "}".

(** The GET answers 304 with a body that holds a token. *)
Definition response_304 : Response :=
  mkResponse 304 (lit "Not Modified") disclaimer_url token_body.

Definition env_304 : Env :=
  mkEnv (fun i => N.of_nat i) (fun _ _ => Returns response_304)
        (fun _ _ => None) (fun _ _ => None).

(** The GET answers 200 with a body that holds a token. *)
Definition env_200 : Env :=
  mkEnv (fun i => N.of_nat i)
        (fun _ _ => Returns (mkResponse 200 (lit "OK") disclaimer_url token_body))
        (fun _ _ => None) (fun _ _ => None).

(** The GET answers 503. *)
Definition env_503 : Env :=
  mkEnv (fun i => N.of_nat i)
        (fun _ _ => Returns (mkResponse 503 (lit "Service Unavailable")
                                        disclaimer_url []))
        (fun _ _ => None) (fun _ _ => None).

(** *** Splitting a stream of frames, as the peer does *)

(** The first frame of a stream: its message, of the length that the
    header gives, and what follows it. *)
Definition take_frame (s : pystr) : option (pystr * pystr) :=
  match read_frame s with
  | None => None
  | Some (n, body) =>
      Some (firstn (N.to_nat n) body, skipn (N.to_nat n) body)
  end.

(** The messages of a stream of at most [fuel] frames. *)
Fixpoint read_frames (fuel : nat) (s : pystr) : option (list pystr) :=
  match s with
  | [] => Some []
  | _ :: _ =>
      match fuel with
      | O => None
      | S fuel' =>
          match take_frame s with
          | None => None
          | Some (m, rest) =>
              match read_frames fuel' rest with
              | None => None
              | Some ms => Some (m :: ms)
              end
          end
      end
  end.

(** *** More observations on a run *)

(** The letter that the [i]-th call of [secrets.choice] returns. *)
Definition letter (E : Env) (i : nat) : pychar :=
  nth (N.to_nat (entropy E i mod len ascii_lowercase)) ascii_lowercase 0.

(** The state after [n] more calls of [secrets.choice]. *)
Definition draw (n : nat) (st : State) : State :=
  mkState (request_header st) (ws st) (quote_session st) (chart_session st)
          (n + drawn st) (http_calls st) (transport st) (log st).

(** The messages logged at the DEBUG level, oldest first. *)
Definition debug_messages (st : State) : list pystr :=
  flat_map (fun entry => match entry with (DEBUG, m) => [m] | _ => [] end)
           (log st).

(** Between two states, the frames handed to [send] and the DEBUG
    entries of the log grew together. *)
Definition mirrored (s s' : State) : Prop :=
  exists ms,
    sent s' = sent s ++ ms
    /\ debug_messages s' = debug_messages s
                           ++ map (fun m => lit "Sending message: " ++ m) ms.

(** The same, from a state whose connection is open, which stays open. *)
Definition mirrored_when_open (s s' : State) : Prop :=
  ws s <> None -> ws s' <> None /\ mirrored s s'.

(** Calls sent one after the other, up to the first exception that is
    not swallowed. *)
Fixpoint send_each (E : Env) (calls : list (pystr * list value)) : M unit :=
  match calls with
  | [] => ret tt
  | (func, args) :: rest =>
      match rest with
      | [] => send_message E func args
      | _ :: _ => send_message E func args ;; send_each E rest
      end
  end.

(** The GET raises an exception that is not a [RequestException]. *)
Definition cookie_not_latin1 : exn :=
  mkExn UnicodeEncodeError
        (lit "'latin-1' codec can't encode characters in position 10-11").

Definition env_unicode : Env :=
  mkEnv (fun i => N.of_nat i) (fun _ _ => Raises cookie_not_latin1)
        (fun _ _ => None) (fun _ _ => None).

(** A session id of two characters outside Latin-1 (U+65E5, U+672C). *)
Definition non_latin1_session : pystr := [26085; 26412].

(* ================================================================== *)
(** * Properties *)

(** ** The model on a few inputs *)

Example encode_string_example :
  py_encode_basestring_ascii [97; 233; 10; 34; 128512]
  = dquote :: lit "a" ++ backslash :: lit "u00e9" ++ backslash :: lit "n"
    ++ [backslash; dquote] ++ backslash :: lit "ud83d" ++ backslash
    :: lit "ude00" ++ [dquote].
Proof. reflexivity. Qed.

Example dumps_example :
  compact_dumps (PyList [PyInt (-12); PyNone; PyBool true; PyList [];
                         PyDict [(lit "k", PyInt 0)]])
  = lit "[-12,null,true,[],{" ++ quoted "k" ++ lit ":0}]".
Proof. reflexivity. Qed.

Example default_separators_example :
  dumps (lit ", ") (lit ": ") (PyDict [(lit "m", PyList [PyInt 1; PyInt 2])])
  = lit "{" ++ quoted "m" ++ lit ": [1, 2]}".
Proof. reflexivity. Qed.

Example re_search_example :
  re_search_auth_token (lit "<script>" ++ token_body ++ lit "</script>")
  = Some (lit "abc").
Proof. reflexivity. Qed.

(** The group is lazy: it ends at the first closing quote. *)
Example re_search_lazy_example :
  re_search_auth_token (quoted "auth_token" ++ lit ":" ++ quoted "ab"
                        ++ lit "cd" ++ [dquote])
  = Some (lit "ab").
Proof. reflexivity. Qed.

(** The group does not cross a line feed, and is not empty. *)
Example re_search_no_match_example :
  re_search_auth_token (quoted "auth_token" ++ lit ":" ++ dquote :: lit "ab"
                        ++ 10 :: lit "cd" ++ [dquote])
  = None
  /\ re_search_auth_token (quoted "auth_token" ++ lit ":" ++ [dquote; dquote])
     = None.
Proof. split; reflexivity. Qed.

Example generate_session_example :
  fst (generate_session env_quiet (lit "qs_") world0)
  = Returns (lit "qs_abcdefghijkl").
Proof. reflexivity. Qed.

Example resolved_token_example :
  fst (choose_auth_token env_200 (Some (lit "s3ss10n")) world0)
  = Returns (lit "abc").
Proof. reflexivity. Qed.

Lemma every_class_is_an_exception (c : exc_class) :
  issubclass c BaseException = true.
Proof. destruct c; reflexivity. Qed.

Example except_clause_examples :
  isinstance broken_pipe [ConnectionError; TimeoutError] = true
  /\ isinstance connection_closed [ConnectionError; TimeoutError] = false
  /\ isinstance timed_out [ConnectionError; TimeoutError] = false
  /\ isinstance timed_out [RequestException] = true.
Proof. repeat split. Qed.

(** ** Decimal numbers are read back *)

Lemma read_uint_digits (d : Decimal.uint) (rest : pystr) :
  read_uint (uint_digits d ++ 126 :: rest) = (d, 126 :: rest).
Proof.
  induction d as [|d IH|d IH|d IH|d IH|d IH|d IH|d IH|d IH|d IH|d IH];
    [reflexivity | cbn; rewrite IH; reflexivity ..].
Qed.

Lemma strip_marker (s : pystr) : strip_prefix (lit "~m~") (lit "~m~" ++ s) = Some s.
Proof. reflexivity. Qed.

Lemma read_frame_prepend_header (message : pystr) :
  read_frame (prepend_header message) = Some (len message, message).
Proof.
  unfold read_frame, prepend_header.
  rewrite strip_marker.
  unfold str_of_N.
  change (lit "~m~" ++ message) with (126 :: (109 :: 126 :: message)).
  rewrite read_uint_digits.
  change (126 :: 109 :: 126 :: message) with (lit "~m~" ++ message).
  rewrite strip_marker, Unsigned.of_to.
  reflexivity.
Qed.

(** ** The characters that the encoder writes *)

Lemma solid_printable (c : pychar) : solid c -> printable c.
Proof. unfold solid, printable. lia. Qed.

Lemma hex_digit_solid (m : N) : m < 16 -> solid (hex_digit m).
Proof.
  intros Hm. unfold hex_digit, solid, dquote, backslash.
  destruct (m <? 10) eqn:H10.
  - apply N.ltb_lt in H10. lia.
  - apply N.ltb_ge in H10. lia.
Qed.

Lemma hex4_solid (n : N) : Forall solid (hex4 n).
Proof.
  unfold hex4.
  repeat constructor; apply hex_digit_solid; apply N.mod_lt; discriminate.
Qed.

Lemma uint_digits_solid (d : Decimal.uint) : Forall solid (uint_digits d).
Proof.
  induction d; cbn [uint_digits]; constructor; trivial;
    unfold solid, dquote, backslash; lia.
Qed.

Lemma str_of_Z_solid (z : Z) : Forall solid (str_of_Z z).
Proof.
  unfold str_of_Z, str_of_N.
  destruct (z <? 0)%Z; [constructor|]; try apply uint_digits_solid.
  unfold solid, dquote, backslash. lia.
Qed.

(** ** Scanning *)

Lemma lex_run_app (q : lex) (a b : pystr) :
  lex_run q (a ++ b)
  = match lex_run q a with Some q' => lex_run q' b | None => None end.
Proof.
  revert q. induction a as [|c a IH]; intros q; simpl.
  - reflexivity.
  - destruct (lex_step q c); [apply IH | reflexivity].
Qed.

Lemma lex_step_solid (q : lex) (c : pychar) :
  solid c -> lex_step q c = Some (match q with Escaped => InString | _ => q end).
Proof.
  unfold solid, dquote, backslash. intros (Hr & Hq & Hb).
  destruct q; cbn [lex_step]; unfold is_space, dquote, backslash.
  - assert ((c =? 32) = false) as -> by (apply N.eqb_neq; lia).
    assert ((c =? 9) = false) as -> by (apply N.eqb_neq; lia).
    assert ((c =? 10) = false) as -> by (apply N.eqb_neq; lia).
    assert ((c =? 13) = false) as -> by (apply N.eqb_neq; lia).
    assert ((c =? 34) = false) as -> by (apply N.eqb_neq; lia).
    reflexivity.
  - assert ((c =? 92) = false) as -> by (apply N.eqb_neq; lia).
    assert ((c =? 34) = false) as -> by (apply N.eqb_neq; lia).
    reflexivity.
  - reflexivity.
Qed.

Lemma lex_run_solid_outside (s : pystr) :
  Forall solid s -> lex_run Outside s = Some Outside.
Proof.
  induction 1 as [|c s Hc _ IH]; cbn [lex_run]; [reflexivity|].
  rewrite (lex_step_solid Outside c Hc). exact IH.
Qed.

Lemma lex_run_solid_string (s : pystr) :
  Forall solid s -> lex_run InString s = Some InString.
Proof.
  induction 1 as [|c s Hc _ IH]; cbn [lex_run]; [reflexivity|].
  rewrite (lex_step_solid InString c Hc). exact IH.
Qed.

Lemma lex_run_u_escape (n : N) : lex_run InString (u_escape n) = Some InString.
Proof.
  unfold u_escape.
  change (lex_run InString (backslash :: 117 :: hex4 n))
    with (lex_run InString (hex4 n)).
  apply lex_run_solid_string, hex4_solid.
Qed.

Lemma u_escape_printable (n : N) : Forall printable (u_escape n).
Proof.
  unfold u_escape. constructor; [unfold printable, backslash; lia|].
  constructor; [unfold printable; lia|].
  eapply Forall_impl; [apply solid_printable | apply hex4_solid].
Qed.

Lemma ESCAPE_ASCII_false (c : pychar) :
  ESCAPE_ASCII c = false -> printable c /\ c <> dquote /\ c <> backslash.
Proof.
  unfold ESCAPE_ASCII, printable. intros H.
  apply orb_false_elim in H. destruct H as [H Hr].
  apply orb_false_elim in H. destruct H as [Hb Hq].
  apply negb_false_iff, andb_true_iff in Hr. destruct Hr as [H1 H2].
  apply N.leb_le in H1. apply N.leb_le in H2.
  apply N.eqb_neq in Hb. apply N.eqb_neq in Hq. auto.
Qed.

Lemma lex_run_escape_char (c : pychar) :
  lex_run InString (escape_char c) = Some InString.
Proof.
  destruct (ESCAPE_ASCII c) eqn:HE.
  - unfold escape_char. rewrite HE. unfold replace, ESCAPE_DCT.
    repeat match goal with
           | |- context [if ?b then _ else _] => destruct b
           end;
      try reflexivity; try apply lex_run_u_escape.
    rewrite lex_run_app, lex_run_u_escape. apply lex_run_u_escape.
  - unfold escape_char. rewrite HE.
    apply ESCAPE_ASCII_false in HE. destruct HE as (_ & Hq & Hb).
    cbn [lex_run lex_step].
    apply N.eqb_neq in Hq. apply N.eqb_neq in Hb. rewrite Hq, Hb.
    reflexivity.
Qed.

Lemma escape_char_printable (c : pychar) : Forall printable (escape_char c).
Proof.
  destruct (ESCAPE_ASCII c) eqn:HE.
  - unfold escape_char. rewrite HE. unfold replace, ESCAPE_DCT.
    repeat match goal with
           | |- context [if ?b then _ else _] => destruct b
           end;
      try apply u_escape_printable;
      try (apply Forall_app; split; apply u_escape_printable);
      repeat constructor; unfold printable, backslash, dquote; lia.
  - unfold escape_char. rewrite HE.
    apply ESCAPE_ASCII_false in HE. repeat constructor; apply HE.
Qed.

Lemma lex_run_escaped (s : pystr) :
  lex_run InString (flat_map escape_char s) = Some InString.
Proof.
  induction s as [|c s IH]; cbn [flat_map]; [reflexivity|].
  rewrite lex_run_app, lex_run_escape_char. exact IH.
Qed.

Lemma compact_string (s : pystr) : compact (py_encode_basestring_ascii s).
Proof.
  unfold compact, py_encode_basestring_ascii.
  change (lex_run Outside (dquote :: flat_map escape_char s ++ [dquote]))
    with (lex_run InString (flat_map escape_char s ++ [dquote])).
  rewrite lex_run_app, lex_run_escaped. reflexivity.
Qed.

Lemma printable_string (s : pystr) :
  Forall printable (py_encode_basestring_ascii s).
Proof.
  unfold py_encode_basestring_ascii.
  constructor; [unfold printable, dquote; lia|].
  apply Forall_app. split.
  - apply Forall_flat_map, Forall_forall. intros c _.
    apply escape_char_printable.
  - repeat constructor; unfold printable, dquote; lia.
Qed.

Lemma compact_app (a b : pystr) : compact a -> compact b -> compact (a ++ b).
Proof.
  unfold compact. intros Ha Hb. rewrite lex_run_app, Ha. exact Hb.
Qed.

Lemma compact_join (sep : pystr) (parts : list pystr) :
  compact sep -> Forall compact parts -> compact (join sep parts).
Proof.
  intros Hsep. induction 1 as [|p ps Hp Hps IH]; [reflexivity|].
  cbn [join]. destruct ps as [|p' ps']; [exact Hp|].
  apply compact_app; [exact Hp|]. apply compact_app; [exact Hsep | exact IH].
Qed.

Lemma printable_join (sep : pystr) (parts : list pystr) :
  Forall printable sep -> Forall (Forall printable) parts ->
  Forall printable (join sep parts).
Proof.
  intros Hsep. induction 1 as [|p ps Hp Hps IH]; [constructor|].
  cbn [join]. destruct ps as [|p' ps']; [exact Hp|].
  apply Forall_app. split; [exact Hp|].
  apply Forall_app. split; [exact Hsep | exact IH].
Qed.

Lemma printable_lit_solid (s : pystr) : Forall solid s -> Forall printable s.
Proof. apply Forall_impl, solid_printable. Qed.

Lemma compact_dumps_compact (v : value) : compact (compact_dumps v).
Proof.
  induction v as [|b|z|s|l IH|d IH] using value_induction;
    unfold compact_dumps; cbn [dumps].
  - reflexivity.
  - destruct b; reflexivity.
  - apply lex_run_solid_outside, str_of_Z_solid.
  - apply compact_string.
  - apply compact_app; [reflexivity|].
    apply compact_app; [|reflexivity].
    apply compact_join; [reflexivity|].
    apply Forall_map. exact IH.
  - apply compact_app; [reflexivity|].
    apply compact_app; [|reflexivity].
    apply compact_join; [reflexivity|].
    apply Forall_map. eapply Forall_impl; [|exact IH].
    intros [k x] Hx. cbn [snd] in Hx.
    apply compact_app; [apply compact_string|].
    apply compact_app; [reflexivity | exact Hx].
Qed.

Lemma compact_dumps_printable (v : value) : Forall printable (compact_dumps v).
Proof.
  assert (Hlit : forall s : string,
             forallb (fun c => (32 <=? c) && (c <=? 126)) (lit s) = true ->
             Forall printable (lit s)).
  { intros s H. apply Forall_forall. intros c Hc.
    rewrite forallb_forall in H. specialize (H c Hc).
    apply andb_true_iff in H. destruct H as [H1 H2].
    apply N.leb_le in H1. apply N.leb_le in H2. split; assumption. }
  induction v as [|b|z|s|l IH|d IH] using value_induction;
    unfold compact_dumps; cbn [dumps].
  - apply Hlit. reflexivity.
  - destruct b; apply Hlit; reflexivity.
  - apply printable_lit_solid, str_of_Z_solid.
  - apply printable_string.
  - apply Forall_app. split; [apply Hlit; reflexivity|].
    apply Forall_app. split; [|apply Hlit; reflexivity].
    apply printable_join; [apply Hlit; reflexivity|].
    apply Forall_map. exact IH.
  - apply Forall_app. split; [apply Hlit; reflexivity|].
    apply Forall_app. split; [|apply Hlit; reflexivity].
    apply printable_join; [apply Hlit; reflexivity|].
    apply Forall_map. eapply Forall_impl; [|exact IH].
    intros [k x] Hx. cbn [snd] in Hx.
    apply Forall_app. split; [apply printable_string|].
    apply Forall_app. split; [apply Hlit; reflexivity | exact Hx].
Qed.

(* ================================================================== *)
(** ** Framing *)

Lemma construct_message_printable (func : pystr) (param_list : list value) :
  Forall printable (construct_message func param_list).
Proof. apply compact_dumps_printable. Qed.

(** C8. The serialized message is the object whose first key is [m], with
    the function name as a string literal, and whose second key is [p],
    with the list of the parameters; nothing but a colon stands between a
    key and its value and nothing but a comma between two items.  No
    whitespace stands outside the string literals, and every character is
    printable ASCII, so the text is the same sequence of bytes.  The text
    depends on the two arguments only. *)
Theorem construct_message_compact_object (func : pystr) (param_list : list value) :
  construct_message func param_list
  = lit "{" ++ quoted "m" ++ lit ":" ++ py_encode_basestring_ascii func
    ++ lit "," ++ quoted "p" ++ lit ":"
    ++ lit "[" ++ join (lit ",") (map compact_dumps param_list) ++ lit "]"
    ++ lit "}"
  /\ compact (construct_message func param_list)
  /\ Forall printable (construct_message func param_list).
Proof.
  split; [|split].
  - unfold construct_message. cbn [dumps map join].
    fold compact_dumps.
    change (py_encode_basestring_ascii (lit "m")) with (quoted "m").
    change (py_encode_basestring_ascii (lit "p")) with (quoted "p").
    rewrite <- !app_assoc. reflexivity.
  - apply compact_dumps_compact.
  - apply construct_message_printable.
Qed.

(** C2. The frame is the marker, the decimal length of the payload, the
    marker and the payload; read back, the number between the two markers
    is the number of characters of the payload, and what follows is the
    payload.  The payload is printable ASCII, so that its characters are
    as many as its bytes. *)
Theorem create_message_length_field (func : pystr) (param_list : list value) :
  let payload := construct_message func param_list in
  create_message func param_list
  = lit "~m~" ++ str_of_N (len payload) ++ lit "~m~" ++ payload
  /\ read_frame (create_message func param_list) = Some (len payload, payload)
  /\ Forall printable payload.
Proof.
  intros payload. split; [|split].
  - reflexivity.
  - apply read_frame_prepend_header.
  - apply construct_message_printable.
Qed.

(** C5, as the specification has it: the frame of the locale message
    with 35 as its length field.  The code does not produce it. *)
Lemma create_message_set_locale_not_35 :
  create_message (lit "set_locale") [PyStr (lit "en"); PyStr (lit "US")]
  <> lit "~m~35~m~" ++ set_locale_json.
Proof. vm_compute. discriminate. Qed.

(** C5, amended.  The frame of the locale message has 34 as its length
    field, which is the number of characters of its payload, and the
    payload holds no space. *)
Theorem create_message_set_locale :
  create_message (lit "set_locale") [PyStr (lit "en"); PyStr (lit "US")]
  = lit "~m~34~m~" ++ set_locale_json
  /\ len set_locale_json = 34
  /\ ~ In 32 set_locale_json.
Proof.
  split; [reflexivity|]. split; [reflexivity|].
  vm_compute. intuition discriminate.
Qed.

(* ================================================================== *)
(** ** Running the methods *)

Lemma bind_returns {A B} (c : M A) (k : A -> M B) (st st' : State) (b : B) :
  bind c k st = (Returns b, st') ->
  exists a st1, c st = (Returns a, st1) /\ k a st1 = (Returns b, st').
Proof.
  unfold bind. destruct (c st) as [[a|e] st1]; intros H.
  - exists a, st1. split; [reflexivity | exact H].
  - discriminate H.
Qed.

Lemma bind_raises_first {A B} (c : M A) (k : A -> M B) (st st1 : State) (e : exn) :
  c st = (Raises e, st1) -> bind c k st = (Raises e, st1).
Proof. unfold bind. intros ->. reflexivity. Qed.

Lemma bind_returns_first {A B} (c : M A) (k : A -> M B) (st st1 : State) (a : A) :
  c st = (Returns a, st1) -> bind c k st = k a st1.
Proof. unfold bind. intros ->. reflexivity. Qed.

#[export] Instance preserved_preorder {X} (f : State -> X) : PreOrder (preserved f).
Proof.
  split.
  - intros s. reflexivity.
  - intros a b c Hab Hbc. unfold preserved in *. congruence.
Qed.

#[export] Instance extended_preorder {X} (f : State -> list X) : PreOrder (extended f).
Proof.
  split.
  - intros s. exists []. symmetry. apply app_nil_r.
  - intros a b c [m1 H1] [m2 H2]. exists (m1 ++ m2).
    rewrite H2, H1. symmetry. apply app_assoc.
Qed.

Section Respects.
Context (R : State -> State -> Prop) {R_preorder : PreOrder R}.

Lemma respects_ret {A} (a : A) : respects R (ret a).
Proof. intros st. reflexivity. Qed.

Lemma respects_raise {A} (e : exn) : respects R (@raise A e).
Proof. intros st. reflexivity. Qed.

Lemma respects_bind {A B} (c : M A) (k : A -> M B) :
  respects R c -> (forall a, respects R (k a)) -> respects R (bind c k).
Proof.
  intros Hc Hk st. unfold bind.
  specialize (Hc st). destruct (c st) as [[a|e] st1]; cbn [snd] in *.
  - transitivity st1; [exact Hc | apply Hk].
  - exact Hc.
Qed.

Lemma respects_try_except {A} (body : M A) classes (handler : exn -> M A) :
  respects R body -> (forall e, respects R (handler e)) ->
  respects R (try_except body classes handler).
Proof.
  intros Hb Hh st. unfold try_except.
  specialize (Hb st). destruct (body st) as [[a|e] st1]; cbn [snd] in *.
  - exact Hb.
  - destruct (isinstance e classes); cbn [snd].
    + transitivity st1; [exact Hb | apply Hh].
    + exact Hb.
Qed.

Lemma respects_repeatM {A} (n : nat) (c : M A) :
  respects R c -> respects R (repeatM n c).
Proof.
  intros Hc. induction n as [|n IH]; cbn [repeatM].
  - apply respects_ret.
  - apply respects_bind; [exact Hc|]. intros x.
    apply respects_bind; [exact IH|]. intros xs. apply respects_ret.
Qed.

Lemma respects_get_ws : respects R get_ws.
Proof. intros st. unfold get_ws. destruct (ws st); reflexivity. Qed.

Lemma respects_get_request_header : respects R get_request_header.
Proof.
  intros st. unfold get_request_header.
  destruct (request_header st); reflexivity.
Qed.
End Respects.

Create HintDb methods.
#[export] Hint Unfold send_message _get_auth_token generate_session
  _initialize_sessions _initialize choose_auth_token __init__
  raise_for_status : methods.

(** A step that writes one field of the state respects what is said of
    the other fields. *)
Ltac primitive :=
  let st := fresh "st" in
  intros st;
  first [ reflexivity
        | exists []; symmetry; apply app_nil_r
        | eexists; reflexivity ].

Ltac walk :=
  autounfold with methods;
  repeat
    match goal with
    | |- PreOrder _ => exact _
    | |- respects _ (bind _ _) => apply respects_bind; [ | | intro ]
    | |- respects _ (try_except _ _ _) =>
        apply respects_try_except; [ | | intro ]
    | |- respects _ (ret _) => apply respects_ret
    | |- respects _ (raise _) => apply respects_raise
    | |- respects _ (repeatM _ _) => apply respects_repeatM
    | |- respects _ get_ws => apply respects_get_ws
    | |- respects _ get_request_header => apply respects_get_request_header
    | |- respects _ (match ?x with _ => _ end) => destruct x
    | |- respects _ (let _ := _ in _) => cbv zeta
    | |- respects _ _ => primitive
    end.

Section Frames.
Variable E : Env.

Lemma send_message_request_header func args :
  respects (preserved request_header) (send_message E func args).
Proof. walk. Qed.

Lemma send_message_quote_session func args :
  respects (preserved quote_session) (send_message E func args).
Proof. walk. Qed.

Lemma send_message_chart_session func args :
  respects (preserved chart_session) (send_message E func args).
Proof. walk. Qed.

Lemma send_message_ws func args :
  respects (preserved ws) (send_message E func args).
Proof. walk. Qed.

Lemma send_message_extends func args :
  respects (extended transport) (send_message E func args).
Proof. walk. Qed.

Lemma choose_auth_token_transport sid :
  respects (preserved transport) (choose_auth_token E sid).
Proof. walk. Qed.

Lemma generate_session_transport prefix :
  respects (preserved transport) (generate_session E prefix).
Proof. walk. Qed.

Lemma generate_session_ws prefix :
  respects (preserved ws) (generate_session E prefix).
Proof. walk. Qed.

Lemma _initialize_extends tok :
  respects (extended transport) (_initialize E tok).
Proof. walk. Qed.
End Frames.

(* ================================================================== *)
(** ** Sending one message *)

Section SendMessage.
Variable E : Env.

(** C10. Whatever the transport does with the message, [send_message]
    leaves [quote_session], [chart_session] and [request_header] as they
    were. *)
Theorem send_message_leaves_fields (func : pystr) (args : list value) (st : State) :
  let st' := snd (send_message E func args st) in
  quote_session st' = quote_session st
  /\ chart_session st' = chart_session st
  /\ request_header st' = request_header st.
Proof.
  cbv zeta. repeat split.
  - apply send_message_quote_session.
  - apply send_message_chart_session.
  - apply send_message_request_header.
Qed.

(** What [send_message] does on an open connection, for each thing the
    transport can do. *)
Lemma send_message_run (func : pystr) (args : list value) (st : State) (c : WebSocket) :
  ws st = Some c ->
  let message := create_message func args in
  let st1 :=
    record_op (OpSend message)
              (record_log (DEBUG, lit "Sending message: " ++ message) st) in
  send_message E func args st
  = match ws_send E (List.length (sent st)) message with
    | None => (Returns tt, st1)
    | Some e =>
        if isinstance e [ConnectionError; TimeoutError]
        then (Returns tt,
              record_log (ERROR, lit "Failed to send message: " ++ exc_str e) st1)
        else (Raises e, st1)
    end.
Proof.
  intros Hws. cbv zeta.
  unfold send_message, bind, try_except, logging, get_ws, ws_send_call.
  cbn [fst snd ws record_log]. rewrite Hws.
  change (sent (record_log (DEBUG, lit "Sending message: " ++ create_message func args) st))
    with (sent st).
  destruct (ws_send E (List.length (sent st)) (create_message func args)) as [e|];
    reflexivity.
Qed.

(** C4, amended.  On an open connection, when the transport's [send]
    raises an exception [e]: if [e] is a [ConnectionError] or a
    [TimeoutError], [send_message] returns normally, after one call of
    [send] (no second attempt, no [close]) and one error entry in the log;
    otherwise [e] goes to the caller. *)
Theorem send_message_swallows (func : pystr) (args : list value) (st : State)
        (c : WebSocket) (e : exn) :
  ws st = Some c ->
  ws_send E (List.length (sent st)) (create_message func args) = Some e ->
  let message := create_message func args in
  let st1 :=
    record_op (OpSend message)
              (record_log (DEBUG, lit "Sending message: " ++ message) st) in
  (isinstance e [ConnectionError; TimeoutError] = true ->
   send_message E func args st
   = (Returns tt,
      record_log (ERROR, lit "Failed to send message: " ++ exc_str e) st1))
  /\ (isinstance e [ConnectionError; TimeoutError] = false ->
      send_message E func args st = (Raises e, st1)).
Proof.
  intros Hws He. cbv zeta.
  rewrite (send_message_run func args st c Hws). cbv zeta. rewrite He.
  split; intros ->; reflexivity.
Qed.

Lemma send_message_transport (func : pystr) (args : list value) (st : State) (c : WebSocket) :
  ws st = Some c ->
  transport (snd (send_message E func args st))
  = transport st ++ [OpSend (create_message func args)].
Proof.
  intros Hws. rewrite (send_message_run func args st c Hws). cbv zeta.
  destruct (ws_send E _ _) as [e|]; [destruct (isinstance e _)|]; reflexivity.
Qed.

End SendMessage.

(** C4, as the specification has it: any exception of [send] is
    swallowed.  Here the socket is closed, [send] raises the exception of
    the websocket library, and [send_message] raises it in turn. *)
Lemma send_message_propagates_closed :
  ws_send env_closed (List.length (sent connected0))
          (create_message (lit "set_locale") [PyStr (lit "en"); PyStr (lit "US")])
  = Some connection_closed
  /\ fst (send_message env_closed (lit "set_locale")
                       [PyStr (lit "en"); PyStr (lit "US")] connected0)
     = Raises connection_closed.
Proof. split; reflexivity. Qed.

(** A broken pipe is a [ConnectionError]: it is swallowed. *)
Lemma send_message_swallows_witness :
  send_message env_broken_pipe (lit "set_locale")
               [PyStr (lit "en"); PyStr (lit "US")] connected0
  = (Returns tt,
     record_log (ERROR, lit "Failed to send message: " ++ exc_str broken_pipe)
       (record_op
          (OpSend (create_message (lit "set_locale")
                                  [PyStr (lit "en"); PyStr (lit "US")]))
          (record_log
             (DEBUG,
              lit "Sending message: "
              ++ create_message (lit "set_locale")
                                [PyStr (lit "en"); PyStr (lit "US")])
             connected0))).
Proof.
  exact (proj1 (send_message_swallows env_broken_pipe (lit "set_locale")
                  [PyStr (lit "en"); PyStr (lit "US")] connected0
                  (mkWebSocket wss_url REQUEST_HEADER) broken_pipe
                  eq_refl eq_refl)
               eq_refl).
Defined.

(* ================================================================== *)
(** ** Session identifiers *)

Section GenerateSession.
Variable E : Env.

Lemma ascii_lowercase_letters : Forall is_lowercase ascii_lowercase.
Proof.
  apply Forall_forall. intros c Hc. unfold is_lowercase.
  cbn in Hc.
  repeat (destruct Hc as [Hc|Hc]; [subst c; lia|]).
  contradiction.
Qed.

Lemma secrets_choice_lowercase (st : State) :
  exists c st',
    secrets_choice E ascii_lowercase st = (Returns c, st') /\ is_lowercase c.
Proof.
  unfold secrets_choice.
  destruct ascii_lowercase as [|a l] eqn:Hl; [discriminate Hl|].
  rewrite <- Hl.
  eexists. eexists. split; [reflexivity|].
  pose proof ascii_lowercase_letters as Hall.
  rewrite Forall_forall in Hall. apply Hall. apply nth_In.
  assert (Hlt : entropy E (drawn st) mod len ascii_lowercase < len ascii_lowercase)
    by (apply N.mod_lt; discriminate).
  unfold len in Hlt at 2. lia.
Qed.

Lemma repeatM_choice (n : nat) (st : State) :
  exists l st',
    repeatM n (secrets_choice E ascii_lowercase) st = (Returns l, st')
    /\ List.length l = n /\ Forall is_lowercase l.
Proof.
  revert st. induction n as [|n IH]; intros st; cbn [repeatM].
  - exists [], st. repeat split. constructor.
  - destruct (secrets_choice_lowercase st) as (c & st1 & Hc & Hlow).
    destruct (IH st1) as (l & st2 & Hl & Hlen & Hall).
    exists (c :: l), st2. split; [|split].
    + rewrite (bind_returns_first _ _ _ _ _ Hc).
      rewrite (bind_returns_first _ _ _ _ _ Hl). reflexivity.
    + cbn [List.length]. congruence.
    + constructor; assumption.
Qed.

Lemma generate_session_returns (prefix : pystr) (st : State) :
  exists suffix st',
    generate_session E prefix st = (Returns (prefix ++ suffix), st')
    /\ List.length suffix = 12%nat /\ Forall is_lowercase suffix.
Proof.
  destruct (repeatM_choice 12 st) as (l & st' & Hl & Hlen & Hall).
  exists l, st'. split; [|split; assumption].
  unfold generate_session. rewrite (bind_returns_first _ _ _ _ _ Hl).
  reflexivity.
Qed.

(** C6. For every prefix and whatever the random source gives,
    [generate_session] returns a string of the length of the prefix plus
    twelve, which starts with the prefix and whose twelve last characters
    are lowercase Latin letters. *)
Theorem generate_session_shape (prefix : pystr) (st : State) :
  exists r,
    fst (generate_session E prefix st) = Returns r
    /\ List.length r = (List.length prefix + 12)%nat
    /\ firstn (List.length prefix) r = prefix
    /\ List.length (skipn (List.length prefix) r) = 12%nat
    /\ Forall is_lowercase (skipn (List.length prefix) r).
Proof.
  destruct (generate_session_returns prefix st) as (suffix & st' & Hrun & Hlen & Hall).
  exists (prefix ++ suffix). rewrite Hrun. cbn [fst].
  assert (Hskip : skipn (List.length prefix) (prefix ++ suffix) = suffix).
  { rewrite skipn_app, skipn_all, Nat.sub_diag. reflexivity. }
  repeat split.
  - rewrite length_app, Hlen. reflexivity.
  - rewrite firstn_app, firstn_all, Nat.sub_diag. cbn [firstn].
    apply app_nil_r.
  - rewrite Hskip. exact Hlen.
  - rewrite Hskip. exact Hall.
Qed.

End GenerateSession.

(* ================================================================== *)
(** ** Token resolution *)

(** The failures of [requests] that the specification names are
    [RequestException]s: a timeout, a connection error (which a DNS
    failure is), and the [HTTPError] of [raise_for_status].  The built-in
    classes of the same names, and those of the websocket library, are
    not. *)
Lemma requests_failures :
  issubclass requests_Timeout RequestException = true
  /\ issubclass requests_ConnectTimeout RequestException = true
  /\ issubclass requests_ReadTimeout RequestException = true
  /\ issubclass requests_ConnectionError RequestException = true
  /\ issubclass requests_SSLError RequestException = true
  /\ issubclass requests_HTTPError RequestException = true
  /\ issubclass ConnectionError RequestException = false
  /\ issubclass UnicodeEncodeError RequestException = false.
Proof. repeat split. Qed.

Section GetAuthToken.
Variable E : Env.

(** C7, amended.  When the GET raises a [RequestException] (a timeout, a
    DNS failure) or answers with a status from 400 to 599,
    [_get_auth_token] returns [None] and raises nothing; the GET was made
    once and one error entry went to the log. *)
Theorem get_auth_token_http_failure (session_id : pystr) (st : State) :
  let answer := requests_get E disclaimer_url [(lit "sessionid", session_id)] in
  (exists e, answer = Raises e
             /\ issubclass (exc_type e) RequestException = true)
  \/ (exists r, answer = Returns r /\ 400 <= status_code r < 600) ->
  let st' := snd (_get_auth_token E session_id st) in
  fst (_get_auth_token E session_id st) = Returns None
  /\ http_calls st'
     = http_calls st ++ [(disclaimer_url, [(lit "sessionid", session_id)])]
  /\ exists msg,
      log st'
      = log st
        ++ [(ERROR, lit "HTTP request failed while getting auth token: " ++ msg)].
Proof.
  cbv zeta. intros [(e & He & Hsub) | (r & Hr & Hlo & Hhi)].
  - unfold _get_auth_token, try_except, bind, requests_get_call.
    rewrite He. cbn [fst snd].
    unfold isinstance. cbn [existsb]. rewrite Hsub. cbn [orb].
    repeat split. exists (exc_str e). reflexivity.
  - unfold _get_auth_token, try_except, bind, requests_get_call, raise_for_status.
    rewrite Hr. cbn [fst snd].
    destruct ((400 <=? status_code r) && (status_code r <? 500)) eqn:H4.
    + repeat split. eexists. reflexivity.
    + assert (H5 : (500 <=? status_code r) && (status_code r <? 600) = true).
      { apply andb_true_iff. split; [apply N.leb_le | apply N.ltb_lt]; [|lia].
        apply andb_false_iff in H4. destruct H4 as [H4|H4].
        - apply N.leb_gt in H4. lia.
        - apply N.ltb_ge in H4. lia. }
      rewrite H5. repeat split. eexists. reflexivity.
Qed.

End GetAuthToken.

(** C7, as the specification has it: every status outside 200-299 gives
    [None].  Here the GET answers 304 and the body holds a token, which
    [_get_auth_token] returns. *)
Lemma get_auth_token_status_304 :
  requests_get env_304 disclaimer_url [(lit "sessionid", lit "s3ss10n")]
  = Returns response_304
  /\ status_code response_304 = 304
  /\ fst (_get_auth_token env_304 (lit "s3ss10n") world0)
     = Returns (Some (lit "abc")).
Proof. repeat split. Qed.

(** The GET times out. *)
Lemma get_auth_token_http_failure_witness :
  fst (_get_auth_token env_quiet (lit "s3ss10n") world0) = Returns None.
Proof.
  refine (proj1 (get_auth_token_http_failure env_quiet (lit "s3ss10n") world0 _)).
  left. exists timed_out. split; reflexivity.
Defined.

(* ================================================================== *)
(** ** Construction *)

Tactic Notation "invert_bind" hyp(H) "as" ident(a) ident(s) ident(Hs) :=
  apply bind_returns in H; destruct H as (a & s & Hs & H).

(** The steps that always return. *)
Lemma bind_logging {B} lvl msg (k : unit -> M B) (st : State) :
  bind (logging lvl msg) k st = k tt (record_log (lvl, msg) st).
Proof. reflexivity. Qed.

Lemma bind_set_request_header {B} h (k : unit -> M B) (st : State) :
  bind (set_request_header h) k st
  = k tt (mkState (Some h) (ws st) (quote_session st) (chart_session st)
                  (drawn st) (http_calls st) (transport st) (log st)).
Proof. reflexivity. Qed.

Lemma bind_set_ws {B} c (k : unit -> M B) (st : State) :
  bind (set_ws c) k st
  = k tt (mkState (request_header st) (Some c) (quote_session st)
                  (chart_session st) (drawn st) (http_calls st)
                  (transport st) (log st)).
Proof. reflexivity. Qed.

Lemma bind_get_request_header {B} h (k : dict -> M B) (st : State) :
  request_header st = Some h -> bind get_request_header k st = k h st.
Proof. unfold bind, get_request_header. intros ->. reflexivity. Qed.

Lemma bind_create_connection {B} (E : Env) u h (k : WebSocket -> M B) (st : State) :
  bind (create_connection_call E u h) k st
  = match create_connection E u h with
    | None => k (mkWebSocket u h) (record_op (OpConnect u h) st)
    | Some e => (Raises e, record_op (OpConnect u h) st)
    end.
Proof.
  unfold bind, create_connection_call.
  destruct (create_connection E u h); reflexivity.
Qed.

Lemma quote_fields_as_listed :
  _get_quote_fields = map (fun name => PyStr (lit name)) spec_quote_fields.
Proof. reflexivity. Qed.

Lemma sent_app (messages : list pystr) (ops : list transport_op) :
  flat_map (fun op => match op with OpSend m => [m] | _ => [] end)
           (ops ++ map OpSend messages)
  = flat_map (fun op => match op with OpSend m => [m] | _ => [] end) ops
    ++ messages.
Proof.
  rewrite flat_map_app. f_equal.
  induction messages as [|m l IH]; [reflexivity|].
  cbn [map flat_map app]. rewrite IH. reflexivity.
Qed.

Section Construction.
Variable E : Env.

Lemma respects_at {A} (R : State -> State -> Prop) (c : M A) (st st' : State)
      (o : outcome A) :
  respects R c -> c st = (o, st') -> R st st'.
Proof. intros Hc Hrun. specialize (Hc st). rewrite Hrun in Hc. exact Hc. Qed.

Lemma choose_auth_token_result (sid : option pystr) (st st' : State) (tok : pystr) :
  choose_auth_token E sid st = (Returns tok, st') ->
  tok = unauthorized_user_token
  \/ exists s r,
      sid = Some s
      /\ requests_get E disclaimer_url [(lit "sessionid", s)] = Returns r
      /\ re_search_auth_token (text r) = Some tok.
Proof.
  unfold choose_auth_token.
  destruct sid as [s|]; [destruct (truthy s)|];
    try (intros H; injection H as <- _; left; reflexivity).
  unfold _get_auth_token, try_except, bind, requests_get_call, raise_for_status.
  destruct (requests_get E disclaimer_url [(lit "sessionid", s)]) as [r|e] eqn:Hget;
    cbn [fst snd].
  - destruct ((400 <=? status_code r) && (status_code r <? 500));
      [cbn; intros H; injection H as <- _; left; reflexivity|].
    destruct ((500 <=? status_code r) && (status_code r <? 600));
      [cbn; intros H; injection H as <- _; left; reflexivity|].
    cbn [ret raise fst snd].
    destruct (re_search_auth_token (text r)) as [t|] eqn:Hsearch; cbn.
    + destruct (truthy t); intros H; injection H as <- _.
      * right. exists s, r. auto.
      * left. reflexivity.
    + intros H; injection H as <- _. left. reflexivity.
  - destruct (isinstance e [RequestException]); cbn; intros H.
    + injection H as <- _. left. reflexivity.
    + discriminate H.
Qed.

Lemma send_message_returns (func : pystr) (args : list value)
      (st st' : State) (c : WebSocket) (o : outcome unit) :
  ws st = Some c ->
  send_message E func args st = (o, st') ->
  ws st' = Some c
  /\ transport st' = transport st ++ [OpSend (create_message func args)].
Proof.
  intros Hws Hrun. split.
  - rewrite <- Hws. exact (respects_at _ _ _ _ _ (send_message_ws E func args) Hrun).
  - pose proof (send_message_transport E func args st c Hws) as Ht.
    rewrite Hrun in Ht. exact Ht.
Qed.

Lemma _initialize_sessions_returns (qs cs tok : pystr) (st st' : State) (c : WebSocket) :
  ws st = Some c ->
  _initialize_sessions E qs cs tok st = (Returns tt, st') ->
  ws st' = Some c
  /\ transport st'
     = transport st ++ map OpSend (spec_initialization_sequence tok qs cs).
Proof.
  unfold _initialize_sessions. intros Hws H.
  invert_bind H as u1 s1 H1.
  destruct (send_message_returns _ _ _ _ _ _ Hws H1) as [W1 T1].
  invert_bind H as u2 s2 H2.
  destruct (send_message_returns _ _ _ _ _ _ W1 H2) as [W2 T2].
  invert_bind H as u3 s3 H3.
  destruct (send_message_returns _ _ _ _ _ _ W2 H3) as [W3 T3].
  invert_bind H as u4 s4 H4.
  destruct (send_message_returns _ _ _ _ _ _ W3 H4) as [W4 T4].
  invert_bind H as u5 s5 H5.
  destruct (send_message_returns _ _ _ _ _ _ W4 H5) as [W5 T5].
  destruct (send_message_returns _ _ _ _ _ _ W5 H) as [W6 T6].
  split; [exact W6|].
  rewrite T6, T5, T4, T3, T2, T1. rewrite quote_fields_as_listed.
  unfold spec_initialization_sequence. cbn [map].
  rewrite <- !app_assoc. cbn [app]. reflexivity.
Qed.

(** What has happened when [__init__] returns: the token was chosen, the
    connection opened, and [_initialize] ran on the state that holds the
    header and the connection. *)
Lemma __init___returns (websocket_url : pystr) (session_id : option pystr)
      (st st' : State) :
  __init__ E websocket_url session_id st = (Returns tt, st') ->
  exists tok s1,
    choose_auth_token E session_id st = (Returns tok, s1)
    /\ create_connection E websocket_url REQUEST_HEADER = None
    /\ _initialize E tok
         (mkState (Some REQUEST_HEADER)
                  (Some (mkWebSocket websocket_url REQUEST_HEADER))
                  (quote_session s1) (chart_session s1) (drawn s1)
                  (http_calls s1)
                  (transport s1 ++ [OpConnect websocket_url REQUEST_HEADER])
                  (log s1))
       = (Returns tt, st').
Proof.
  unfold __init__. intros H.
  invert_bind H as tok s1 Htok.
  exists tok, s1. split; [exact Htok|].
  rewrite bind_set_request_header in H.
  rewrite (bind_get_request_header REQUEST_HEADER) in H by reflexivity.
  rewrite bind_create_connection in H.
  destruct (create_connection E websocket_url REQUEST_HEADER) as [e|];
    [discriminate H|].
  split; [reflexivity|].
  rewrite bind_set_ws in H. exact H.
Qed.

Lemma set_sessions_run (qs cs : pystr) (st : State) :
  (set_quote_session qs ;; set_chart_session cs) st
  = (Returns tt,
     mkState (request_header st) (ws st) (Some qs) (Some cs)
             (drawn st) (http_calls st) (transport st) (log st)).
Proof. reflexivity. Qed.

Lemma _initialize_returns (tok : pystr) (st st' : State) :
  _initialize E tok st = (Returns tt, st') ->
  exists qs cs s6 s7 s9,
    generate_session E (lit "qs_") st = (Returns qs, s6)
    /\ generate_session E (lit "cs_") s6 = (Returns cs, s7)
    /\ _initialize_sessions E qs cs tok
         (record_log (INFO, lit "Quote session generated: " ++ qs
                            ++ lit ", Chart session generated: " ++ cs) s7)
       = (Returns tt, s9)
    /\ st' = mkState (request_header s9) (ws s9) (Some qs) (Some cs)
                     (drawn s9) (http_calls s9) (transport s9) (log s9).
Proof.
  unfold _initialize. intros H.
  invert_bind H as qs s6 Hqs.
  invert_bind H as cs s7 Hcs.
  rewrite bind_logging in H.
  invert_bind H as u s9 Hsessions. destruct u.
  exists qs, cs, s6, s7, s9.
  split; [exact Hqs|]. split; [exact Hcs|]. split; [exact Hsessions|].
  rewrite set_sessions_run in H. congruence.
Qed.

Lemma StreamHandler_run (websocket_url : pystr) (session_id : option pystr)
      (st : State) :
  StreamHandler E websocket_url session_id st
  = __init__ E websocket_url session_id (new_object st).
Proof. reflexivity. Qed.

(** C1. When the construction succeeds, the calls made on the transport
    are the connection and then six calls of [send], with the six framed
    messages of the specification in its order: [set_auth_token] with the
    token (the sentinel, or the token found in the body of the answer to
    the GET), [set_locale], [chart_create_session],
    [quote_create_session], [quote_set_fields] with the quote session and
    the 23 field names, and [quote_hibernate_all].  The two sessions are
    those stored in the handler. *)
Theorem initialization_sequence_sent (websocket_url : pystr)
        (session_id : option pystr) (st : State) :
  returned (fst (StreamHandler E websocket_url session_id st)) = true ->
  let st' := snd (StreamHandler E websocket_url session_id st) in
  exists token quoteSession chartSession,
    quote_session st' = Some quoteSession
    /\ chart_session st' = Some chartSession
    /\ (token = unauthorized_user_token
        \/ exists s r,
            session_id = Some s
            /\ requests_get E disclaimer_url [(lit "sessionid", s)] = Returns r
            /\ re_search_auth_token (text r) = Some token)
    /\ transport st'
       = transport st
         ++ OpConnect websocket_url REQUEST_HEADER
            :: map OpSend
                 (spec_initialization_sequence token quoteSession chartSession)
    /\ sent st'
       = sent st ++ spec_initialization_sequence token quoteSession chartSession
    /\ List.length (spec_initialization_sequence token quoteSession chartSession)
       = 6%nat
    /\ List.length spec_quote_fields = 23%nat.
Proof.
  cbv zeta. rewrite StreamHandler_run.
  destruct (__init__ E websocket_url session_id (new_object st))
    as [[[]|e] st'] eqn:H;
    cbn [fst snd returned]; [intros _ | discriminate].
  apply __init___returns in H. destruct H as (tok & s1 & Htok & _ & H).
  apply _initialize_returns in H.
  destruct H as (qs & cs & s6 & s7 & s9 & Hqs & Hcs & Hsessions & ->).
  pose proof (respects_at _ _ _ _ _ (choose_auth_token_transport E session_id) Htok) as T1.
  pose proof (respects_at _ _ _ _ _ (generate_session_transport E _) Hqs) as T6.
  pose proof (respects_at _ _ _ _ _ (generate_session_transport E _) Hcs) as T7.
  pose proof (respects_at _ _ _ _ _ (generate_session_ws E _) Hqs) as W6.
  pose proof (respects_at _ _ _ _ _ (generate_session_ws E _) Hcs) as W7.
  unfold preserved in T1, T6, T7, W6, W7.
  cbn [ws transport new_object] in T1, T6, T7, W6, W7.
  assert (W8 : ws (record_log
                     (INFO, lit "Quote session generated: " ++ qs
                            ++ lit ", Chart session generated: " ++ cs) s7)
               = Some (mkWebSocket websocket_url REQUEST_HEADER)).
  { unfold record_log. cbn [ws]. congruence. }
  destruct (_initialize_sessions_returns _ _ _ _ _ _ W8 Hsessions) as [W9 T9].
  unfold record_log in T9. cbn [transport] in T9.
  assert (Htransport :
            transport s9
            = transport st
              ++ OpConnect websocket_url REQUEST_HEADER
                 :: map OpSend (spec_initialization_sequence tok qs cs)).
  { rewrite T9, T7, T6, T1. rewrite <- app_assoc. reflexivity. }
  exists tok, qs, cs. cbn [quote_session chart_session transport].
  split; [reflexivity|]. split; [reflexivity|].
  split; [exact (choose_auth_token_result _ _ _ _ Htok)|].
  split; [exact Htransport|].
  split; [|split; reflexivity].
  unfold sent. cbn [transport]. rewrite Htransport.
  change (OpConnect websocket_url REQUEST_HEADER
          :: map OpSend (spec_initialization_sequence tok qs cs))
    with ([OpConnect websocket_url REQUEST_HEADER]
          ++ map OpSend (spec_initialization_sequence tok qs cs)).
  rewrite app_assoc, sent_app, flat_map_app. cbn [flat_map app].
  rewrite app_nil_r. reflexivity.
Qed.

Lemma bind_extends {A B} (c : M A) (k : A -> M B) (st : State) :
  (forall a, respects (extended transport) (k a)) ->
  extended transport (snd (c st)) (snd (bind c k st)).
Proof.
  intros Hk. unfold bind. destruct (c st) as [[a|e] s1]; cbn [snd].
  - apply Hk.
  - reflexivity.
Qed.

Lemma choose_auth_token_falsy (session_id : option pystr) (st : State) :
  truthy_opt session_id = false ->
  choose_auth_token E session_id st = (Returns unauthorized_user_token, st).
Proof.
  unfold choose_auth_token. destruct session_id as [s|]; cbn [truthy_opt].
  - intros ->. reflexivity.
  - reflexivity.
Qed.

Lemma _initialize_sessions_first_message (qs cs tok : pystr) (st : State) (c : WebSocket) :
  ws st = Some c ->
  exists more,
    transport (snd (_initialize_sessions E qs cs tok st))
    = transport st ++ OpSend (create_message (lit "set_auth_token") [PyStr tok])
                      :: more.
Proof.
  intros Hws. unfold _initialize_sessions.
  destruct (bind_extends (send_message E (lit "set_auth_token") [PyStr tok])
              (fun _ =>
                 send_message E (lit "set_locale")
                              [PyStr (lit "en"); PyStr (lit "US")] ;;
                 send_message E (lit "chart_create_session")
                              [PyStr cs; PyStr (lit "")] ;;
                 send_message E (lit "quote_create_session") [PyStr qs] ;;
                 send_message E (lit "quote_set_fields")
                              (PyStr qs :: _get_quote_fields) ;;
                 send_message E (lit "quote_hibernate_all") [PyStr qs])
              st) as [more Hmore].
  { intros _. walk. }
  exists more. rewrite Hmore.
  rewrite (send_message_transport E _ _ st c Hws).
  rewrite <- app_assoc. reflexivity.
Qed.

Lemma _initialize_first_message (tok : pystr) (st : State) (c : WebSocket) :
  ws st = Some c ->
  exists more,
    transport (snd (_initialize E tok st))
    = transport st ++ OpSend (create_message (lit "set_auth_token") [PyStr tok])
                      :: more.
Proof.
  intros Hws. unfold _initialize.
  destruct (generate_session_returns E (lit "qs_") st) as (q & s6 & Hqs & _).
  destruct (generate_session_returns E (lit "cs_") s6) as (k & s7 & Hcs & _).
  rewrite (bind_returns_first _ _ _ _ _ Hqs).
  rewrite (bind_returns_first _ _ _ _ _ Hcs).
  rewrite bind_logging.
  pose proof (respects_at _ _ _ _ _ (generate_session_transport E _) Hqs) as T6.
  pose proof (respects_at _ _ _ _ _ (generate_session_transport E _) Hcs) as T7.
  pose proof (respects_at _ _ _ _ _ (generate_session_ws E _) Hqs) as W6.
  pose proof (respects_at _ _ _ _ _ (generate_session_ws E _) Hcs) as W7.
  unfold preserved in T6, T7, W6, W7.
  match goal with
  | |- context [bind ?c0 ?k0 ?s0] =>
      destruct (bind_extends c0 k0 s0) as [more2 H2]; [intros _; walk|];
      assert (Hw : ws s0 = Some c) by (unfold record_log; cbn [ws]; congruence);
      destruct (_initialize_sessions_first_message
                  (lit "qs_" ++ q) (lit "cs_" ++ k) tok s0 c Hw) as [more1 H1];
      assert (Ht : transport s0 = transport st)
        by (unfold record_log; cbn [transport]; congruence)
  end.
  exists (more1 ++ more2). rewrite H2, H1, Ht.
  rewrite <- app_assoc. reflexivity.
Qed.

Lemma _initialize_http_calls (tok : pystr) :
  respects (preserved http_calls) (_initialize E tok).
Proof. walk. Qed.

(** C3. When the handler is constructed with no session credential
    ([None]; the empty string does the same) and the connection opens, no
    GET is made, and the first call of [send] on the transport carries
    the frame of [set_auth_token] with the one parameter
    [unauthorized_user_token]. *)
Theorem first_message_unauthorized (websocket_url : pystr)
        (session_id : option pystr) (st : State) :
  truthy_opt session_id = false ->
  create_connection E websocket_url REQUEST_HEADER = None ->
  let st' := snd (StreamHandler E websocket_url session_id st) in
  let first :=
    create_message (lit "set_auth_token")
                   [PyStr (lit "unauthorized_user_token")] in
  http_calls st' = http_calls st
  /\ (exists more,
         transport st'
         = transport st
           ++ OpConnect websocket_url REQUEST_HEADER :: OpSend first :: more)
  /\ first
     = lit "~m~54~m~{" ++ quoted "m" ++ lit ":" ++ quoted "set_auth_token"
       ++ lit "," ++ quoted "p" ++ lit ":[" ++ quoted "unauthorized_user_token"
       ++ lit "]}".
Proof.
  intros Hsid Hconn. cbv zeta. rewrite StreamHandler_run. unfold __init__.
  rewrite (bind_returns_first _ _ _ _ _
             (choose_auth_token_falsy session_id (new_object st) Hsid)).
  rewrite bind_set_request_header.
  rewrite (bind_get_request_header REQUEST_HEADER) by reflexivity.
  rewrite bind_create_connection, Hconn, bind_set_ws.
  cbn [transport new_object record_op request_header ws quote_session
       chart_session drawn http_calls log].
  match goal with
  | |- context [_initialize E ?t ?s0] =>
      destruct (_initialize_first_message t s0
                  (mkWebSocket websocket_url REQUEST_HEADER) eq_refl)
        as [more Hmore];
      pose proof (_initialize_http_calls t s0) as Hcalls
  end.
  unfold preserved in Hcalls. cbn [transport http_calls] in Hmore, Hcalls.
  split; [exact Hcalls|]. split; [|reflexivity].
  exists more. rewrite Hmore. rewrite <- app_assoc. reflexivity.
Qed.

End Construction.

(* ================================================================== *)
(** ** The log does not steer the construction *)

#[export] Instance same_but_log_equivalence : Equivalence same_but_log.
Proof.
  split.
  - intros s. repeat split.
  - intros a b (H1 & H2 & H3 & H4 & H5 & H6). repeat split; congruence.
  - intros a b c (H1 & H2 & H3 & H4 & H5 & H6) (K1 & K2 & K3 & K4 & K5 & K6).
    repeat split; congruence.
Qed.

Lemma log_blind_ret {A} (a : A) : log_blind (ret a).
Proof. intros s1 s2 H. split; [reflexivity | exact H]. Qed.

Lemma log_blind_raise {A} (e : exn) : log_blind (@raise A e).
Proof. intros s1 s2 H. split; [reflexivity | exact H]. Qed.

Lemma log_blind_bind {A B} (c : M A) (k : A -> M B) :
  log_blind c -> (forall a, log_blind (k a)) -> log_blind (bind c k).
Proof.
  intros Hc Hk s1 s2 Hs. unfold bind.
  destruct (Hc s1 s2 Hs) as [Ho Hst].
  destruct (c s1) as [[a|e] t1], (c s2) as [[a'|e'] t2];
    cbn [fst snd] in *; try discriminate Ho.
  - injection Ho as <-. apply Hk. exact Hst.
  - injection Ho as <-. split; [reflexivity | exact Hst].
Qed.

Lemma log_blind_try_except {A} (body : M A) classes (handler : exn -> M A) :
  log_blind body -> (forall e, log_blind (handler e)) ->
  log_blind (try_except body classes handler).
Proof.
  intros Hb Hh s1 s2 Hs. unfold try_except.
  destruct (Hb s1 s2 Hs) as [Ho Hst].
  destruct (body s1) as [[a|e] t1], (body s2) as [[a'|e'] t2];
    cbn [fst snd] in *; try discriminate Ho.
  - split; assumption.
  - injection Ho as <-. destruct (isinstance e classes).
    + apply Hh. exact Hst.
    + split; [reflexivity | exact Hst].
Qed.

Lemma log_blind_repeatM {A} (n : nat) (c : M A) :
  log_blind c -> log_blind (repeatM n c).
Proof.
  intros Hc. induction n as [|n IH]; cbn [repeatM].
  - apply log_blind_ret.
  - apply log_blind_bind; [exact Hc|]. intros x.
    apply log_blind_bind; [exact IH|]. intros xs. apply log_blind_ret.
Qed.

(** The steps read the attributes, the number of values drawn and the
    calls on the transport, never the log nor the GETs made. *)
Ltac blind_primitive :=
  let s1 := fresh "s1" in
  let s2 := fresh "s2" in
  let Hrh := fresh "Hrh" in
  let Hws := fresh "Hws" in
  let Hqs := fresh "Hqs" in
  let Hcs := fresh "Hcs" in
  let Hd := fresh "Hd" in
  let Ht := fresh "Ht" in
  intros s1 s2 (Hrh & Hws & Hqs & Hcs & Hd & Ht);
  unfold logging, set_request_header, set_ws, set_quote_session,
    set_chart_session, get_request_header, get_ws, secrets_choice,
    requests_get_call, create_connection_call, ws_send_call,
    same_but_log, sent, record_log, record_op, record_get;
  cbn [fst snd request_header ws quote_session chart_session drawn
       http_calls transport log];
  rewrite ?Hrh, ?Hws, ?Hqs, ?Hcs, ?Hd, ?Ht;
  repeat match goal with
         | |- context [match ?x with _ => _ end] => destruct x eqn:?
         end;
  cbn [fst snd request_header ws quote_session chart_session drawn
       http_calls transport log];
  repeat split; congruence.

Ltac blind_walk :=
  autounfold with methods;
  repeat
    match goal with
    | |- log_blind (bind _ _) => apply log_blind_bind; [ | intro ]
    | |- log_blind (try_except _ _ _) =>
        apply log_blind_try_except; [ | intro ]
    | |- log_blind (ret _) => apply log_blind_ret
    | |- log_blind (raise _) => apply log_blind_raise
    | |- log_blind (repeatM _ _) => apply log_blind_repeatM
    | |- log_blind (let _ := _ in _) => cbv zeta
    | |- log_blind (match ?x with _ => _ end) => destruct x
    | |- log_blind _ => blind_primitive
    end.

Section TokenFailure.
Variable E : Env.

Lemma _get_auth_token_same_but_log (s : pystr) :
  respects same_but_log (_get_auth_token E s).
Proof.
  unfold _get_auth_token, raise_for_status.
  apply respects_try_except; [exact _ | | intro].
  - apply respects_bind; [exact _ | | intro].
    + intros st. repeat split.
    + apply respects_bind; [exact _ | | intro].
      * repeat match goal with
               | |- respects _ (if ?b then _ else _) => destruct b
               end;
          first [apply respects_raise | apply respects_ret]; exact _.
      * apply respects_ret; exact _.
  - apply respects_bind; [exact _ | | intro].
    + intros st. repeat split.
    + apply respects_ret; exact _.
Qed.

(** What [__init__] does once the token is chosen. *)
Lemma __init___after_token (websocket_url : pystr) (session_id : option pystr)
      (st s1 : State) (tok : pystr) :
  choose_auth_token E session_id st = (Returns tok, s1) ->
  __init__ E websocket_url session_id st
  = (set_request_header REQUEST_HEADER ;;
     header <- get_request_header ;;
     c <- create_connection_call E websocket_url header ;;
     set_ws c ;;
     _initialize E tok) s1.
Proof.
  intros Htok. unfold __init__.
  rewrite (bind_returns_first _ _ _ _ _ Htok). reflexivity.
Qed.

Lemma after_token_log_blind (websocket_url tok : pystr) :
  log_blind (set_request_header REQUEST_HEADER ;;
             header <- get_request_header ;;
             c <- create_connection_call E websocket_url header ;;
             set_ws c ;;
             _initialize E tok).
Proof. blind_walk. Qed.

Lemma choose_auth_token_failed (s : pystr) (st : State) :
  truthy s = true ->
  fst (_get_auth_token E s st) = Returns None ->
  choose_auth_token E (Some s) st
  = (Returns unauthorized_user_token,
     record_log
       (ERROR, lit "Failed to get auth token. Connecting as unauthorized user.")
       (snd (_get_auth_token E s st))).
Proof.
  intros Hs Hnone. unfold choose_auth_token. rewrite Hs. unfold bind at 1.
  destruct (_get_auth_token E s st) as [[tok|e] s1]; cbn [fst snd] in *;
    [|discriminate Hnone].
  injection Hnone as ->. reflexivity.
Qed.

(** C9, amended.  When the connection cannot be opened, the construction
    does not return and nothing is sent; once the token is chosen, the
    exception that the caller gets is the one of the connection, after
    one attempt to connect.  When the resolution of the token fails in a
    way that [_get_auth_token] absorbs (it returns [None]), the
    construction ends as the construction without a credential does: same
    outcome, same attributes, same calls on the transport. *)
Theorem connection_failure_propagates (websocket_url : pystr)
        (session_id : option pystr) (st : State) :
  (forall e,
      create_connection E websocket_url REQUEST_HEADER = Some e ->
      returned (fst (StreamHandler E websocket_url session_id st)) = false
      /\ sent (snd (StreamHandler E websocket_url session_id st)) = sent st
      /\ (forall tok s1,
             choose_auth_token E session_id (new_object st) = (Returns tok, s1) ->
             fst (StreamHandler E websocket_url session_id st) = Raises e
             /\ transport (snd (StreamHandler E websocket_url session_id st))
                = transport st ++ [OpConnect websocket_url REQUEST_HEADER]))
  /\ (forall s,
         session_id = Some s ->
         fst (_get_auth_token E s (new_object st)) = Returns None ->
         fst (StreamHandler E websocket_url session_id st)
         = fst (StreamHandler E websocket_url None st)
         /\ same_but_log (snd (StreamHandler E websocket_url session_id st))
                         (snd (StreamHandler E websocket_url None st))).
Proof.
  split.
  - intros e Hconn. rewrite StreamHandler_run.
    pose proof (choose_auth_token_transport E session_id (new_object st)) as T1.
    unfold preserved in T1. cbn [transport new_object] in T1.
    destruct (choose_auth_token E session_id (new_object st)) as [[tok|e'] s1] eqn:Htok;
      cbn [snd] in T1.
    + rewrite (__init___after_token _ _ _ _ _ Htok).
      rewrite bind_set_request_header.
      rewrite (bind_get_request_header REQUEST_HEADER) by reflexivity.
      rewrite bind_create_connection, Hconn.
      cbn [fst snd returned]. unfold sent, record_op. cbn [transport].
      rewrite T1, flat_map_app. cbn [flat_map app]. rewrite app_nil_r.
      split; [reflexivity|]. split; [reflexivity|].
      intros _ _ _. split; reflexivity.
    + unfold __init__. rewrite (bind_raises_first _ _ _ _ _ Htok).
      cbn [fst snd returned]. unfold sent. rewrite T1.
      split; [reflexivity|]. split; [reflexivity|].
      intros tok s1' Habs. discriminate Habs.
  - intros s -> Hnone. rewrite !StreamHandler_run.
    rewrite (__init___after_token websocket_url None (new_object st)
               (new_object st) unauthorized_user_token eq_refl).
    destruct (truthy s) eqn:Hs.
    + rewrite (__init___after_token _ _ _ _ _
                 (choose_auth_token_failed s (new_object st) Hs Hnone)).
      apply after_token_log_blind.
      transitivity (snd (_get_auth_token E s (new_object st))).
      * symmetry. unfold record_log. repeat split.
      * symmetry. apply _get_auth_token_same_but_log.
    + rewrite (__init___after_token _ _ _ _ _
                 (choose_auth_token_falsy E (Some s) (new_object st) Hs)).
      split; reflexivity.
Qed.

End TokenFailure.

(** A construction with a credential whose token is found. *)
Lemma initialization_sequence_sent_witness :
  let st' := snd (StreamHandler env_200 wss_url (Some (lit "s3ss10n")) world0) in
  exists token quoteSession chartSession,
    quote_session st' = Some quoteSession
    /\ chart_session st' = Some chartSession
    /\ (token = unauthorized_user_token
        \/ exists s r,
            Some (lit "s3ss10n") = Some s
            /\ requests_get env_200 disclaimer_url [(lit "sessionid", s)]
               = Returns r
            /\ re_search_auth_token (text r) = Some token)
    /\ transport st'
       = transport world0
         ++ OpConnect wss_url REQUEST_HEADER
            :: map OpSend
                 (spec_initialization_sequence token quoteSession chartSession)
    /\ sent st'
       = sent world0
         ++ spec_initialization_sequence token quoteSession chartSession
    /\ List.length (spec_initialization_sequence token quoteSession chartSession)
       = 6%nat
    /\ List.length spec_quote_fields = 23%nat.
Proof.
  refine (initialization_sequence_sent env_200 wss_url (Some (lit "s3ss10n"))
                                       world0 _).
  vm_compute. reflexivity.
Defined.

(** A construction without a credential. *)
Lemma first_message_unauthorized_witness :
  let st' := snd (StreamHandler env_quiet wss_url None world0) in
  let first :=
    create_message (lit "set_auth_token")
                   [PyStr (lit "unauthorized_user_token")] in
  http_calls st' = http_calls world0
  /\ (exists more,
         transport st'
         = transport world0
           ++ OpConnect wss_url REQUEST_HEADER :: OpSend first :: more)
  /\ first
     = lit "~m~54~m~{" ++ quoted "m" ++ lit ":" ++ quoted "set_auth_token"
       ++ lit "," ++ quoted "p" ++ lit ":[" ++ quoted "unauthorized_user_token"
       ++ lit "]}".
Proof.
  refine (first_message_unauthorized env_quiet wss_url None world0 _ _);
    reflexivity.
Defined.

(** C9, as the specification has it: no failure of the token resolution
    makes the construction fail.  Here the session id holds characters
    outside Latin-1 and the GET raises [UnicodeEncodeError], which is not
    a [RequestException].  The connection opens and every [send]
    succeeds, as the construction without a credential shows; the
    construction with the credential raises the exception of the GET. *)
Lemma construction_fails_in_token_resolution :
  create_connection env_unicode wss_url REQUEST_HEADER = None
  /\ returned (fst (StreamHandler env_unicode wss_url None world0)) = true
  /\ fst (StreamHandler env_unicode wss_url (Some non_latin1_session) world0)
     = Raises cookie_not_latin1
  /\ isinstance cookie_not_latin1 [RequestException] = false.
Proof.
  split; [reflexivity|].
  split; [vm_compute; reflexivity|].
  split; [vm_compute; reflexivity | reflexivity].
Qed.

(** A refused connection, and a GET answered by 503. *)
Lemma connection_failure_propagates_witness :
  (fst (StreamHandler env_refused wss_url None world0) = Raises refused
   /\ transport (snd (StreamHandler env_refused wss_url None world0))
      = transport world0 ++ [OpConnect wss_url REQUEST_HEADER])
  /\ fst (StreamHandler env_503 wss_url (Some (lit "s3ss10n")) world0)
     = fst (StreamHandler env_503 wss_url None world0).
Proof.
  split.
  - refine (proj2 (proj2 (proj1 (connection_failure_propagates
                                   env_refused wss_url None world0)
                                refused eq_refl))
                  unauthorized_user_token (new_object world0) eq_refl).
  - refine (proj1 (proj2 (connection_failure_propagates
                            env_503 wss_url (Some (lit "s3ss10n")) world0)
                         (lit "s3ss10n") eq_refl _)).
    vm_compute. reflexivity.
Defined.

(* ================================================================== *)
(** * Further properties *)

(** ** A stream of frames is split back into its messages *)

Lemma read_frame_prepend_header_app (message rest : pystr) :
  read_frame (prepend_header message ++ rest)
  = Some (len message, message ++ rest).
Proof.
  unfold read_frame, prepend_header.
  rewrite <- !app_assoc. rewrite strip_marker.
  unfold str_of_N.
  change (lit "~m~" ++ message ++ rest) with (126 :: (109 :: 126 :: message ++ rest)).
  rewrite read_uint_digits.
  change (126 :: 109 :: 126 :: message ++ rest) with (lit "~m~" ++ message ++ rest).
  rewrite strip_marker, Unsigned.of_to.
  reflexivity.
Qed.

Lemma take_frame_prepend_header (message rest : pystr) :
  take_frame (prepend_header message ++ rest) = Some (message, rest).
Proof.
  unfold take_frame. rewrite read_frame_prepend_header_app.
  unfold len. rewrite Nnat.Nat2N.id.
  rewrite firstn_app, firstn_all, Nat.sub_diag.
  rewrite skipn_app, skipn_all, Nat.sub_diag.
  cbn [firstn skipn List.app]. rewrite app_nil_r. reflexivity.
Qed.

Lemma prepend_header_not_empty (message : pystr) : prepend_header message <> [].
Proof. unfold prepend_header. discriminate. Qed.

(** X1. Frames written one after the other are split back into the
    messages they carry, whatever the messages hold (markers, digits,
    nothing at all): the header of [prepend_header] delimits each one. *)
Theorem read_frames_prepend_header (messages : list pystr) :
  read_frames (List.length messages) (List.concat (map prepend_header messages))
  = Some messages.
Proof.
  induction messages as [|m ms IH]; [reflexivity|].
  cbn [map List.concat List.length read_frames].
  destruct (prepend_header m ++ List.concat (map prepend_header ms)) as [|c tl] eqn:Hs.
  - apply app_eq_nil in Hs. destruct Hs as [Hs _].
    destruct (prepend_header_not_empty m Hs).
  - rewrite <- Hs, take_frame_prepend_header, IH. reflexivity.
Qed.

(** ** The token pattern *)

Lemma strip_prefix_app (p s rest : pystr) :
  strip_prefix p s = Some rest -> s = p ++ rest.
Proof.
  revert s. induction p as [|a p IH]; intros s; cbn [strip_prefix].
  - intros H. injection H as ->. reflexivity.
  - destruct s as [|b s]; [discriminate|].
    destruct (a =? b) eqn:Hab; [|discriminate].
    apply N.eqb_eq in Hab. subst b. intros H.
    cbn [List.app]. f_equal. apply IH. exact H.
Qed.

Lemma strip_prefix_same (p rest : pystr) : strip_prefix p (p ++ rest) = Some rest.
Proof.
  induction p as [|a p IH]; cbn [strip_prefix List.app]; [reflexivity|].
  rewrite N.eqb_refl. exact IH.
Qed.

Lemma lazy_group_sound (acc s t : pystr) :
  lazy_group acc s = Some t ->
  exists mid post,
    t = List.rev acc ++ mid /\ s = mid ++ dquote :: post
    /\ ~ In 10 mid /\ ~ In dquote mid.
Proof.
  revert acc. induction s as [|c s IH]; intros acc; cbn [lazy_group];
    [discriminate|].
  destruct (c =? dquote) eqn:Hq.
  - apply N.eqb_eq in Hq. subst c. intros H. injection H as <-.
    exists [], s. rewrite app_nil_r. repeat split; intros [].
  - destruct (c =? 10) eqn:Hn; [discriminate|].
    apply N.eqb_neq in Hq. apply N.eqb_neq in Hn.
    intros H. destruct (IH _ H) as (mid & post & Ht & Hs & Hn' & Hq').
    exists (c :: mid), post. cbn [List.rev] in Ht. rewrite <- app_assoc in Ht.
    split; [exact Ht|]. split; [cbn [List.app]; congruence|].
    split; intros [Hc|Hin]; auto.
Qed.

Lemma lazy_group_complete (acc mid post : pystr) :
  ~ In 10 mid -> ~ In dquote mid ->
  lazy_group acc (mid ++ dquote :: post) = Some (List.rev acc ++ mid).
Proof.
  revert acc. induction mid as [|c mid IH]; intros acc Hn Hq; cbn [List.app lazy_group].
  - rewrite N.eqb_refl, app_nil_r. reflexivity.
  - assert (Hc1 : (c =? dquote) = false)
      by (apply N.eqb_neq; intros ->; apply Hq; left; reflexivity).
    assert (Hc2 : (c =? 10) = false)
      by (apply N.eqb_neq; intros ->; apply Hn; left; reflexivity).
    rewrite Hc1, Hc2, IH.
    + cbn [List.rev]. rewrite <- app_assoc. reflexivity.
    + intros H. apply Hn. right. exact H.
    + intros H. apply Hq. right. exact H.
Qed.

Lemma match_here_sound (s t : pystr) :
  match_here s = Some t ->
  truthy t = true /\ ~ In 10 t
  /\ exists post, s = auth_token_prefix ++ t ++ dquote :: post.
Proof.
  unfold match_here.
  destruct (strip_prefix auth_token_prefix s) as [rest|] eqn:Hp; [|discriminate].
  apply strip_prefix_app in Hp. subst s.
  unfold group1. destruct rest as [|c rest]; [discriminate|].
  destruct (c =? 10) eqn:Hn; [discriminate|]. apply N.eqb_neq in Hn.
  intros H. destruct (lazy_group_sound _ _ _ H) as (mid & post & -> & -> & Hn' & _).
  cbn [List.rev List.app truthy]. split; [reflexivity|].
  split.
  - intros [Hc|Hin]; auto.
  - exists post. reflexivity.
Qed.

(** X2. A token found by the pattern is never empty and holds no line
    feed, and the body holds it between the opening of the pattern and a
    double quote. *)
Theorem re_search_auth_token_sound (body t : pystr) :
  re_search_auth_token body = Some t ->
  truthy t = true
  /\ ~ In 10 t
  /\ exists before after,
      body = before ++ auth_token_prefix ++ t ++ dquote :: after.
Proof.
  induction body as [|c body IH]; cbn [re_search_auth_token].
  - destruct (match_here []) as [g|] eqn:Hm; [|discriminate].
    intros H. injection H as ->.
    destruct (match_here_sound _ _ Hm) as (H1 & H2 & post & H3).
    split; [exact H1|]. split; [exact H2|]. exists [], post. exact H3.
  - destruct (match_here (c :: body)) as [g|] eqn:Hm.
    + intros H. injection H as ->.
      destruct (match_here_sound _ _ Hm) as (H1 & H2 & post & H3).
      split; [exact H1|]. split; [exact H2|]. exists [], post. exact H3.
    + intros H. destruct (IH H) as (H1 & H2 & before & after & H3).
      split; [exact H1|]. split; [exact H2|].
      exists (c :: before), after. cbn [List.app]. congruence.
Qed.

(** A body that holds a token after some markup. *)
Lemma re_search_auth_token_sound_witness :
  truthy (lit "abc") = true
  /\ ~ In 10 (lit "abc")
  /\ exists before after,
      lit "<script>" ++ token_body
      = before ++ auth_token_prefix ++ lit "abc" ++ dquote :: after.
Proof.
  exact (re_search_auth_token_sound (lit "<script>" ++ token_body) (lit "abc")
                                    eq_refl).
Defined.

(** X3. When the body holds, after the opening of the pattern, one
    character or more without a line feed nor a double quote and then a
    double quote, the search finds a token. *)
Theorem re_search_auth_token_complete (before t after : pystr) :
  truthy t = true -> ~ In 10 t -> ~ In dquote t ->
  exists found,
    re_search_auth_token (before ++ auth_token_prefix ++ t ++ dquote :: after)
    = Some found.
Proof.
  intros Ht Hn Hq. induction before as [|c before IH].
  - exists t. cbn [List.app].
    assert (Hm : match_here (auth_token_prefix ++ t ++ dquote :: after) = Some t).
    { unfold match_here. rewrite strip_prefix_same.
      destruct t as [|c t]; [discriminate Ht|]. cbn [List.app group1].
      assert (Hc : (c =? 10) = false)
        by (apply N.eqb_neq; intros ->; apply Hn; left; reflexivity).
      rewrite Hc.
      rewrite (lazy_group_complete [c] t after).
      - reflexivity.
      - intros H. apply Hn. right. exact H.
      - intros H. apply Hq. right. exact H. }
    destruct (auth_token_prefix ++ t ++ dquote :: after) as [|x xs] eqn:Hs;
      cbn [re_search_auth_token]; rewrite Hm; reflexivity.
  - destruct IH as [found Hfound]. cbn [List.app re_search_auth_token].
    destruct (match_here (c :: before ++ auth_token_prefix ++ t ++ dquote :: after))
      as [g|].
    + exists g. reflexivity.
    + exists found. exact Hfound.
Qed.

Lemma re_search_auth_token_complete_witness :
  exists found,
    re_search_auth_token
      (lit "<script>" ++ auth_token_prefix ++ lit "abc" ++ dquote :: lit "}")
    = Some found.
Proof.
  refine (re_search_auth_token_complete (lit "<script>") (lit "abc") (lit "}")
                                        eq_refl _ _);
    cbn; intuition discriminate.
Defined.

(* ================================================================== *)
(** ** The session identifiers within reach *)

Lemma draw_nothing (st : State) : draw 0 st = st.
Proof. destruct st. reflexivity. Qed.

Lemma draw_more (n : nat) (st : State) : draw n (draw 1 st) = draw (S n) st.
Proof. unfold draw. cbn [request_header ws quote_session chart_session drawn
                         http_calls transport log]. f_equal. lia. Qed.

Lemma secrets_choice_run (E : Env) (st : State) :
  secrets_choice E ascii_lowercase st = (Returns (letter E (drawn st)), draw 1 st).
Proof.
  unfold secrets_choice, letter.
  destruct ascii_lowercase as [|a l] eqn:Hl; [discriminate Hl|].
  reflexivity.
Qed.

Lemma repeatM_choice_run (E : Env) (n : nat) (st : State) :
  repeatM n (secrets_choice E ascii_lowercase) st
  = (Returns (map (letter E) (seq (drawn st) n)), draw n st).
Proof.
  revert st. induction n as [|n IH]; intros st; cbn [repeatM seq map].
  - rewrite draw_nothing. reflexivity.
  - rewrite (bind_returns_first _ _ _ _ _ (secrets_choice_run E st)).
    rewrite (bind_returns_first _ _ _ _ _ (IH (draw 1 st))).
    rewrite draw_more. reflexivity.
Qed.

Lemma generate_session_run (E : Env) (prefix : pystr) (st : State) :
  generate_session E prefix st
  = (Returns (prefix ++ map (letter E) (seq (drawn st) 12)), draw 12 st).
Proof.
  unfold generate_session.
  rewrite (bind_returns_first _ _ _ _ _ (repeatM_choice_run E 12 st)).
  reflexivity.
Qed.

Lemma nth_ascii_lowercase (k : nat) :
  (k < 26)%nat -> nth k ascii_lowercase 0 = 97 + N.of_nat k.
Proof.
  intros Hk.
  do 26 (destruct k as [|k]; [reflexivity|]).
  lia.
Qed.

Lemma letter_selected (c : pychar) :
  is_lowercase c ->
  nth (N.to_nat ((c - 97) mod len ascii_lowercase)) ascii_lowercase 0 = c.
Proof.
  unfold is_lowercase. intros Hc.
  change (len ascii_lowercase) with 26.
  rewrite N.mod_small by lia.
  rewrite nth_ascii_lowercase by lia.
  rewrite Nnat.N2Nat.id. lia.
Qed.

Lemma letters_selected (E : Env) (d : nat) (suffix : pystr) :
  Forall is_lowercase suffix ->
  (forall i, entropy E i = nth (i - d) suffix 97 - 97) ->
  map (letter E) (seq d (List.length suffix)) = suffix.
Proof.
  intros Hall HE.
  assert (Hgen : forall l k,
             Forall is_lowercase l ->
             (forall j, (j < List.length l)%nat ->
                        nth (k + j - d) suffix 97 = nth j l 97) ->
             map (letter E) (seq k (List.length l)) = l).
  { induction l as [|c l IH]; intros k Hl Hnth; [reflexivity|].
    cbn [List.length seq map]. f_equal.
    - unfold letter. rewrite HE.
      specialize (Hnth 0%nat). cbn [List.length nth] in Hnth.
      rewrite Nat.add_0_r in Hnth. rewrite Hnth by lia.
      apply letter_selected. inversion Hl. assumption.
    - apply IH; [inversion Hl; assumption|].
      intros j Hj. specialize (Hnth (S j)). cbn [List.length nth] in Hnth.
      replace (S k + j - d)%nat with (k + S j - d)%nat by lia.
      apply Hnth. lia. }
  apply Hgen; [exact Hall|].
  intros j _. f_equal. lia.
Qed.

(** X5. No identifier is out of reach: for every prefix and every twelve
    lowercase letters, some values of the random source make
    [generate_session] return the prefix followed by these letters. *)
Theorem generate_session_reaches (prefix suffix : pystr) (st : State) :
  List.length suffix = 12%nat ->
  Forall is_lowercase suffix ->
  exists E, fst (generate_session E prefix st) = Returns (prefix ++ suffix).
Proof.
  intros Hlen Hall.
  exists (mkEnv (fun i => nth (i - drawn st) suffix 97 - 97)
                (fun _ _ => Raises timed_out) (fun _ _ => None)
                (fun _ _ => None)).
  rewrite generate_session_run. cbn [fst].
  rewrite <- Hlen at 1.
  rewrite (letters_selected _ (drawn st) suffix Hall); [reflexivity|].
  intros i. reflexivity.
Qed.

Lemma generate_session_reaches_witness :
  exists E,
    fst (generate_session E (lit "cs_") world0)
    = Returns (lit "cs_" ++ lit "tradingviews").
Proof.
  refine (generate_session_reaches (lit "cs_") (lit "tradingviews") world0
                                   eq_refl _).
  apply Forall_forall. intros c Hc. unfold is_lowercase.
  cbn in Hc. repeat (destruct Hc as [Hc|Hc]; [subst c; lia|]). contradiction.
Defined.

(* ================================================================== *)
(** ** The credential and the token during a construction *)

Lemma bind_preserved_after {A B X} (f : State -> X) (c : M A) (k : A -> M B)
      (st : State) :
  (forall a, respects (preserved f) (k a)) ->
  f (snd (bind c k st)) = f (snd (c st)).
Proof.
  intros Hk. unfold bind. destruct (c st) as [[a|e] s1]; cbn [snd].
  - apply Hk.
  - reflexivity.
Qed.

Section Credential.
Variable E : Env.

Lemma _get_auth_token_http_calls (s : pystr) (st : State) :
  http_calls (snd (_get_auth_token E s st))
  = http_calls st ++ [(disclaimer_url, [(lit "sessionid", s)])].
Proof.
  unfold _get_auth_token, try_except, bind, requests_get_call, raise_for_status.
  destruct (requests_get E disclaimer_url [(lit "sessionid", s)]) as [r|e];
    cbn [fst snd].
  - destruct ((400 <=? status_code r) && (status_code r <? 500)); [reflexivity|].
    destruct ((500 <=? status_code r) && (status_code r <? 600)); reflexivity.
  - destruct (isinstance e [RequestException]); reflexivity.
Qed.

Lemma choose_auth_token_http_calls (session_id : option pystr) (st : State) :
  http_calls (snd (choose_auth_token E session_id st))
  = http_calls st
    ++ match session_id with
       | Some s =>
           if truthy s then [(disclaimer_url, [(lit "sessionid", s)])] else []
       | None => []
       end.
Proof.
  unfold choose_auth_token.
  destruct session_id as [s|]; [destruct (truthy s)|];
    try (cbn [ret snd]; symmetry; apply app_nil_r).
  rewrite bind_preserved_after.
  - apply _get_auth_token_http_calls.
  - intros token. walk.
Qed.

Lemma after_token_http_calls (websocket_url tok : pystr) :
  respects (preserved http_calls)
           (set_request_header REQUEST_HEADER ;;
            header <- get_request_header ;;
            c <- create_connection_call E websocket_url header ;;
            set_ws c ;;
            _initialize E tok).
Proof. walk. Qed.

(** X6. Whatever its outcome, a construction makes one GET when the
    session id is truthy, to the disclaimer page and with the session id
    as the cookie [sessionid], and none when the session id is [None] or
    empty: the credential goes nowhere else, and only once. *)
Theorem construction_http_calls (websocket_url : pystr)
        (session_id : option pystr) (st : State) :
  http_calls (snd (StreamHandler E websocket_url session_id st))
  = http_calls st
    ++ match session_id with
       | Some s =>
           if truthy s
           then [(lit "https://www.tradingview.com/disclaimer/",
                  [(lit "sessionid", s)])]
           else []
       | None => []
       end.
Proof.
  rewrite StreamHandler_run. unfold __init__.
  rewrite bind_preserved_after.
  - apply (choose_auth_token_http_calls session_id (new_object st)).
  - intros tok. apply after_token_http_calls.
Qed.

(** X7. When the session id is truthy and the GET raises an exception
    that is not a [RequestException], the constructor raises this
    exception: nothing is logged, no connection is attempted and no
    attribute of the handler is assigned. *)
Theorem construction_get_raises (websocket_url s : pystr) (st : State) (e : exn) :
  truthy s = true ->
  requests_get E disclaimer_url [(lit "sessionid", s)] = Raises e ->
  isinstance e [RequestException] = false ->
  StreamHandler E websocket_url (Some s) st
  = (Raises e,
     record_get (disclaimer_url, [(lit "sessionid", s)]) (new_object st)).
Proof.
  intros Hs Hget Hexc. rewrite StreamHandler_run. unfold __init__.
  apply bind_raises_first.
  unfold choose_auth_token. rewrite Hs. apply bind_raises_first.
  unfold _get_auth_token, try_except, bind, requests_get_call.
  rewrite Hget. cbn [fst snd]. rewrite Hexc. reflexivity.
Qed.

Lemma re_search_auth_token_truthy (body t : pystr) :
  re_search_auth_token body = Some t -> truthy t = true.
Proof.
  induction body as [|c body IH]; cbn [re_search_auth_token].
  - destruct (match_here []) as [g|] eqn:Hm; [|discriminate].
    intros H. injection H as ->. apply (match_here_sound _ _ Hm).
  - destruct (match_here (c :: body)) as [g|] eqn:Hm; [|exact IH].
    intros H. injection H as ->. apply (match_here_sound _ _ Hm).
Qed.

Lemma choose_auth_token_found (s t : pystr) (r : Response) (st : State) :
  truthy s = true ->
  requests_get E disclaimer_url [(lit "sessionid", s)] = Returns r ->
  (status_code r < 400 \/ 600 <= status_code r) ->
  re_search_auth_token (text r) = Some t ->
  choose_auth_token E (Some s) st
  = (Returns t, record_get (disclaimer_url, [(lit "sessionid", s)]) st).
Proof.
  intros Hs Hget Hstatus Hsearch.
  unfold choose_auth_token. rewrite Hs.
  unfold _get_auth_token, try_except, bind, requests_get_call, raise_for_status.
  rewrite Hget. cbn [fst snd].
  assert (H4 : (400 <=? status_code r) && (status_code r <? 500) = false).
  { apply andb_false_iff. destruct Hstatus as [H|H].
    - left. apply N.leb_gt. exact H.
    - right. apply N.ltb_ge. lia. }
  assert (H5 : (500 <=? status_code r) && (status_code r <? 600) = false).
  { apply andb_false_iff. destruct Hstatus as [H|H].
    - left. apply N.leb_gt. lia.
    - right. apply N.ltb_ge. exact H. }
  rewrite H4, H5. cbn [ret fst snd]. rewrite Hsearch.
  cbn [truthy_opt]. rewrite (re_search_auth_token_truthy _ _ Hsearch).
  reflexivity.
Qed.

Lemma first_message_after_token (websocket_url : pystr)
      (session_id : option pystr) (st s1 : State) (tok : pystr) :
  choose_auth_token E session_id (new_object st) = (Returns tok, s1) ->
  create_connection E websocket_url REQUEST_HEADER = None ->
  exists more,
    transport (snd (StreamHandler E websocket_url session_id st))
    = transport st
      ++ OpConnect websocket_url REQUEST_HEADER
         :: OpSend (create_message (lit "set_auth_token") [PyStr tok]) :: more.
Proof.
  intros Htok Hconn. rewrite StreamHandler_run.
  rewrite (__init___after_token E _ _ _ _ _ Htok).
  rewrite bind_set_request_header.
  rewrite (bind_get_request_header REQUEST_HEADER) by reflexivity.
  rewrite bind_create_connection, Hconn, bind_set_ws.
  cbn [transport record_op request_header ws quote_session
       chart_session drawn http_calls log].
  pose proof (respects_at _ _ _ _ _ (choose_auth_token_transport E session_id) Htok) as T1.
  unfold preserved in T1. cbn [transport new_object] in T1.
  match goal with
  | |- context [_initialize E ?t ?s0] =>
      destruct (_initialize_first_message E t s0
                  (mkWebSocket websocket_url REQUEST_HEADER) eq_refl)
        as [more Hmore]
  end.
  cbn [transport] in Hmore.
  exists more. rewrite Hmore, T1. rewrite <- app_assoc. reflexivity.
Qed.

(** X8. When the session id is truthy, the GET answers with a status
    below 400 or above 599 and the pattern finds a token in the body, and
    the connection opens, the first frame handed to [send] is
    [set_auth_token] with this token as its one parameter. *)
Theorem first_message_resolved_token (websocket_url s t : pystr) (r : Response)
        (st : State) :
  truthy s = true ->
  requests_get E disclaimer_url [(lit "sessionid", s)] = Returns r ->
  (status_code r < 400 \/ 600 <= status_code r) ->
  re_search_auth_token (text r) = Some t ->
  create_connection E websocket_url REQUEST_HEADER = None ->
  exists more,
    transport (snd (StreamHandler E websocket_url (Some s) st))
    = transport st
      ++ OpConnect websocket_url REQUEST_HEADER
         :: OpSend (create_message (lit "set_auth_token") [PyStr t]) :: more.
Proof.
  intros Hs Hget Hstatus Hsearch Hconn.
  exact (first_message_after_token websocket_url (Some s) st _ t
           (choose_auth_token_found s t r (new_object st) Hs Hget Hstatus Hsearch)
           Hconn).
Qed.

Lemma after_token_log (websocket_url tok : pystr) :
  respects (extended log)
           (set_request_header REQUEST_HEADER ;;
            header <- get_request_header ;;
            c <- create_connection_call E websocket_url header ;;
            set_ws c ;;
            _initialize E tok).
Proof. walk. Qed.

(** X9. When the session id is truthy, [_get_auth_token] returns [None]
    and the connection opens, the construction goes on as an unauthorized
    user: the log holds the error entry that says so, and the first frame
    handed to [send] is [set_auth_token] with the sentinel. *)
Theorem first_message_after_failed_resolution (websocket_url s : pystr) (st : State) :
  truthy s = true ->
  fst (_get_auth_token E s (new_object st)) = Returns None ->
  create_connection E websocket_url REQUEST_HEADER = None ->
  let st' := snd (StreamHandler E websocket_url (Some s) st) in
  In (ERROR, lit "Failed to get auth token. Connecting as unauthorized user.")
     (log st')
  /\ exists more,
      transport st'
      = transport st
        ++ OpConnect websocket_url REQUEST_HEADER
           :: OpSend (create_message (lit "set_auth_token")
                                     [PyStr (lit "unauthorized_user_token")])
           :: more.
Proof.
  intros Hs Hnone Hconn. cbv zeta.
  pose proof (choose_auth_token_failed E s (new_object st) Hs Hnone) as Htok.
  split.
  - rewrite StreamHandler_run.
    rewrite (__init___after_token E _ _ _ _ _ Htok).
    match goal with
    | |- In _ (log (snd (?c ?s0))) =>
        destruct (after_token_log websocket_url unauthorized_user_token s0)
          as [more Hmore]
    end.
    rewrite Hmore. unfold record_log at 1. cbn [log].
    apply in_or_app. left. apply in_or_app. right. left. reflexivity.
  - exact (first_message_after_token websocket_url (Some s) st _ _ Htok Hconn).
Qed.

End Credential.

Lemma construction_get_raises_witness :
  StreamHandler env_unicode wss_url (Some (lit "s3ss10n")) world0
  = (Raises cookie_not_latin1,
     record_get (disclaimer_url, [(lit "sessionid", lit "s3ss10n")])
                (new_object world0)).
Proof.
  exact (construction_get_raises env_unicode wss_url (lit "s3ss10n") world0
           cookie_not_latin1 eq_refl eq_refl eq_refl).
Defined.

Lemma first_message_resolved_token_witness :
  exists more,
    transport (snd (StreamHandler env_200 wss_url (Some (lit "s3ss10n")) world0))
    = transport world0
      ++ OpConnect wss_url REQUEST_HEADER
         :: OpSend (create_message (lit "set_auth_token") [PyStr (lit "abc")])
         :: more.
Proof.
  refine (first_message_resolved_token env_200 wss_url (lit "s3ss10n") (lit "abc")
            (mkResponse 200 (lit "OK") disclaimer_url token_body) world0
            eq_refl eq_refl _ eq_refl eq_refl).
  left. reflexivity.
Defined.

Lemma first_message_after_failed_resolution_witness :
  let st' := snd (StreamHandler env_503 wss_url (Some (lit "s3ss10n")) world0) in
  In (ERROR, lit "Failed to get auth token. Connecting as unauthorized user.")
     (log st')
  /\ exists more,
      transport st'
      = transport world0
        ++ OpConnect wss_url REQUEST_HEADER
           :: OpSend (create_message (lit "set_auth_token")
                                     [PyStr (lit "unauthorized_user_token")])
           :: more.
Proof.
  refine (first_message_after_failed_resolution env_503 wss_url (lit "s3ss10n")
            world0 eq_refl _ eq_refl).
  vm_compute. reflexivity.
Defined.

(* ================================================================== *)
(** ** The calls on the transport, whatever the outcome *)

Section TransportDiscipline.
Variable E : Env.

Lemma _initialize_sessions_as_send_each (qs cs tok : pystr) :
  _initialize_sessions E qs cs tok
  = send_each E
      [ (lit "set_auth_token", [PyStr tok]);
        (lit "set_locale", [PyStr (lit "en"); PyStr (lit "US")]);
        (lit "chart_create_session", [PyStr cs; PyStr (lit "")]);
        (lit "quote_create_session", [PyStr qs]);
        (lit "quote_set_fields", PyStr qs :: _get_quote_fields);
        (lit "quote_hibernate_all", [PyStr qs]) ].
Proof. reflexivity. Qed.

Lemma send_message_sessions func args :
  respects (preserved quote_session) (send_message E func args)
  /\ respects (preserved chart_session) (send_message E func args).
Proof. split; walk. Qed.

(** The frames of a list of calls go out in order; the first exception
    that is not swallowed stops them. *)
Lemma send_each_prefix (calls : list (pystr * list value)) (st : State)
      (c : WebSocket) :
  ws st = Some c ->
  exists k,
    (k <= List.length calls)%nat
    /\ transport (snd (send_each E calls st))
       = transport st
         ++ map OpSend
              (firstn k (map (fun fa => create_message (fst fa) (snd fa)) calls))
    /\ (returned (fst (send_each E calls st)) = true -> k = List.length calls)
    /\ quote_session (snd (send_each E calls st)) = quote_session st
    /\ chart_session (snd (send_each E calls st)) = chart_session st.
Proof.
  revert st. induction calls as [|[f a] rest IH]; intros st Hws.
  - exists 0%nat. cbn [send_each ret fst snd List.length firstn map].
    rewrite app_nil_r. repeat split. apply Nat.le_refl.
  - cbn [send_each].
    destruct (send_message E f a st) as [o s1] eqn:Hrun.
    destruct (send_message_returns E _ _ _ _ _ _ Hws Hrun) as [W1 T1].
    pose proof (respects_at _ _ _ _ _ (proj1 (send_message_sessions f a)) Hrun) as Q1.
    pose proof (respects_at _ _ _ _ _ (proj2 (send_message_sessions f a)) Hrun) as C1.
    unfold preserved in Q1, C1.
    destruct rest as [|r rest'].
    + exists 1%nat. rewrite Hrun. cbn [fst snd List.length firstn map].
      split; [apply Nat.le_refl|]. split; [exact T1|].
      split; [reflexivity|]. split; assumption.
    + destruct o as [u|e].
      * rewrite (bind_returns_first _ _ _ _ _ Hrun).
        destruct (IH s1 W1) as (k & Hk & Ht & Hret & Hq & Hc).
        exists (S k). cbn [List.length firstn map fst snd] in *.
        split; [lia|]. split.
        { rewrite Ht, T1. rewrite <- app_assoc. reflexivity. }
        split; [intros H; f_equal; apply Hret; exact H|].
        split; congruence.
      * rewrite (bind_raises_first _ _ _ _ _ Hrun).
        exists 1%nat. cbn [fst snd List.length firstn map returned].
        split; [lia|]. split; [exact T1|].
        split; [discriminate|]. split; assumption.
Qed.

Lemma choose_auth_token_sessions (session_id : option pystr) :
  respects (preserved quote_session) (choose_auth_token E session_id)
  /\ respects (preserved chart_session) (choose_auth_token E session_id).
Proof. split; walk. Qed.

(** X10. Whatever its outcome, a construction calls the transport in one
    order only: nothing at all, or one connection followed by the first
    [k] of the six frames of the initialization, for some [k] from 0 to
    6, and [k] is 6 when the construction returns.  It never closes the
    connection.  When the construction fails, the handler has neither
    [quote_session] nor [chart_session]. *)
Theorem construction_calls_in_order (websocket_url : pystr)
        (session_id : option pystr) (st : State) :
  let run := StreamHandler E websocket_url session_id st in
  (transport (snd run) = transport st
   \/ exists tok qs cs k,
       (k <= 6)%nat
       /\ transport (snd run)
          = transport st
            ++ OpConnect websocket_url REQUEST_HEADER
               :: map OpSend (firstn k (spec_initialization_sequence tok qs cs))
       /\ (returned (fst run) = true -> k = 6%nat))
  /\ (returned (fst run) = false ->
      quote_session (snd run) = None /\ chart_session (snd run) = None).
Proof.
  cbv zeta. rewrite StreamHandler_run.
  destruct (choose_auth_token E session_id (new_object st)) as [[tok|e] s1] eqn:Htok.
  - pose proof (respects_at _ _ _ _ _ (choose_auth_token_transport E session_id) Htok) as T1.
    pose proof (respects_at _ _ _ _ _ (proj1 (choose_auth_token_sessions session_id)) Htok) as Q1.
    pose proof (respects_at _ _ _ _ _ (proj2 (choose_auth_token_sessions session_id)) Htok) as C1.
    unfold preserved in T1, Q1, C1.
    cbn [transport quote_session chart_session new_object] in T1, Q1, C1.
    rewrite (__init___after_token E _ _ _ _ _ Htok).
    rewrite bind_set_request_header.
    rewrite (bind_get_request_header REQUEST_HEADER) by reflexivity.
    rewrite bind_create_connection.
    destruct (create_connection E websocket_url REQUEST_HEADER) as [e|].
    + cbn [fst snd returned transport quote_session chart_session record_op].
      split; [|intros _; split; assumption].
      right. exists tok, [], [], 0%nat. cbn [firstn map].
      split; [lia|]. split; [rewrite T1; reflexivity | discriminate].
    + rewrite bind_set_ws. unfold _initialize.
      rewrite (bind_returns_first _ _ _ _ _ (generate_session_run E (lit "qs_") _)).
      rewrite (bind_returns_first _ _ _ _ _ (generate_session_run E (lit "cs_") _)).
      rewrite bind_logging, _initialize_sessions_as_send_each.
      match goal with
      | |- context [bind (send_each E ?calls) ?k0 ?s0] =>
          destruct (send_each_prefix calls s0
                      (mkWebSocket websocket_url REQUEST_HEADER) eq_refl)
            as (k & Hk & Ht & Hret & Hq & Hc);
          destruct (send_each E calls s0) as [[u|e] s9] eqn:Hrun
      end.
      * rewrite (bind_returns_first _ _ _ _ _ Hrun), set_sessions_run.
        cbn [fst snd returned transport] in *.
        split; [|discriminate].
        right. eexists tok, _, _, k. split; [exact Hk|].
        split; [|exact Hret].
        rewrite Ht. cbn [transport record_log record_op draw]. rewrite T1.
        rewrite quote_fields_as_listed. rewrite <- app_assoc. reflexivity.
      * rewrite (bind_raises_first _ _ _ _ _ Hrun).
        cbn [fst snd returned transport quote_session chart_session
             record_log record_op draw] in *.
        split; [|intros _; split; congruence].
        right. eexists tok, _, _, k. split; [exact Hk|].
        split; [|exact Hret].
        rewrite Ht, T1.
        rewrite quote_fields_as_listed. rewrite <- app_assoc. reflexivity.
  - pose proof (respects_at _ _ _ _ _ (choose_auth_token_transport E session_id) Htok) as T1.
    pose proof (respects_at _ _ _ _ _ (proj1 (choose_auth_token_sessions session_id)) Htok) as Q1.
    pose proof (respects_at _ _ _ _ _ (proj2 (choose_auth_token_sessions session_id)) Htok) as C1.
    unfold preserved in T1, Q1, C1.
    cbn [transport quote_session chart_session new_object] in T1, Q1, C1.
    unfold __init__. rewrite (bind_raises_first _ _ _ _ _ Htok).
    cbn [fst snd]. split; [left; exact T1 | intros _; split; assumption].
Qed.

End TransportDiscipline.

(* ================================================================== *)
(** ** The handler that a construction gives *)

Section Constructed.
Variable E : Env.

Lemma generate_session_request_header (prefix : pystr) :
  respects (preserved request_header) (generate_session E prefix).
Proof. walk. Qed.

Lemma _initialize_sessions_attributes (qs cs tok : pystr) :
  respects (preserved request_header) (_initialize_sessions E qs cs tok)
  /\ respects (preserved ws) (_initialize_sessions E qs cs tok).
Proof. split; walk. Qed.

(** X11. A construction that returns gives a handler all of whose
    attributes are assigned: the fixed header, the handle that
    [create_connection] returned for the URL and this header, and the two
    session identifiers, [qs_] and [cs_] each followed by twelve
    lowercase letters.  The two identifiers are never equal. *)
Theorem construction_assigns_attributes (websocket_url : pystr)
        (session_id : option pystr) (st : State) :
  returned (fst (StreamHandler E websocket_url session_id st)) = true ->
  let st' := snd (StreamHandler E websocket_url session_id st) in
  request_header st' = Some REQUEST_HEADER
  /\ ws st' = Some (mkWebSocket websocket_url REQUEST_HEADER)
  /\ (exists a b,
         quote_session st' = Some (lit "qs_" ++ a)
         /\ chart_session st' = Some (lit "cs_" ++ b)
         /\ List.length a = 12%nat /\ List.length b = 12%nat
         /\ Forall is_lowercase a /\ Forall is_lowercase b)
  /\ quote_session st' <> chart_session st'.
Proof.
  cbv zeta. rewrite StreamHandler_run.
  destruct (__init__ E websocket_url session_id (new_object st))
    as [[[]|e] st'] eqn:H;
    cbn [fst snd returned]; [intros _ | discriminate].
  apply __init___returns in H. destruct H as (tok & s1 & Htok & _ & H).
  apply _initialize_returns in H.
  destruct H as (qs & cs & s6 & s7 & s9 & Hqs & Hcs & Hsessions & ->).
  pose proof (respects_at _ _ _ _ _ (generate_session_request_header _) Hqs) as R6.
  pose proof (respects_at _ _ _ _ _ (generate_session_request_header _) Hcs) as R7.
  pose proof (respects_at _ _ _ _ _ (generate_session_ws E _) Hqs) as W6.
  pose proof (respects_at _ _ _ _ _ (generate_session_ws E _) Hcs) as W7.
  destruct (_initialize_sessions_attributes qs cs tok) as (Hh & Hw).
  pose proof (respects_at _ _ _ _ _ Hh Hsessions) as R9.
  pose proof (respects_at _ _ _ _ _ Hw Hsessions) as W9.
  unfold preserved in R6, R7, W6, W7, R9, W9.
  cbn [request_header ws record_log] in R6, R7, W6, W7, R9, W9.
  match type of Hqs with
  | generate_session E _ ?s5 = _ =>
      destruct (generate_session_returns E (lit "qs_") s5)
        as (a & t6 & Ha & La & Fa)
  end.
  destruct (generate_session_returns E (lit "cs_") s6) as (b & t7 & Hb & Lb & Fb).
  assert (Eqs : qs = lit "qs_" ++ a) by congruence.
  assert (Ecs : cs = lit "cs_" ++ b) by congruence.
  cbn [request_header ws quote_session chart_session].
  split; [congruence|]. split; [congruence|].
  split.
  - exists a, b. rewrite Eqs, Ecs.
    split; [reflexivity|]. split; [reflexivity|].
    split; [exact La|]. split; [exact Lb|]. split; assumption.
  - rewrite Eqs, Ecs. intros Heq.
    apply (f_equal (fun o => match o with
                             | Some (c :: _) => c
                             | _ => 0
                             end)) in Heq.
    discriminate Heq.
Qed.

End Constructed.

Lemma construction_assigns_attributes_witness :
  let st' := snd (StreamHandler env_quiet wss_url None world0) in
  request_header st' = Some REQUEST_HEADER
  /\ ws st' = Some (mkWebSocket wss_url REQUEST_HEADER)
  /\ (exists a b,
         quote_session st' = Some (lit "qs_" ++ a)
         /\ chart_session st' = Some (lit "cs_" ++ b)
         /\ List.length a = 12%nat /\ List.length b = 12%nat
         /\ Forall is_lowercase a /\ Forall is_lowercase b)
  /\ quote_session st' <> chart_session st'.
Proof.
  refine (construction_assigns_attributes env_quiet wss_url None world0 _).
  vm_compute. reflexivity.
Defined.

(* ================================================================== *)
(** ** What the log tells of the frames *)

#[export] Instance mirrored_preorder : PreOrder mirrored.
Proof.
  split.
  - intros s. exists []. cbn [map]. rewrite !app_nil_r. split; reflexivity.
  - intros a b c (m1 & S1 & D1) (m2 & S2 & D2). exists (m1 ++ m2).
    rewrite S2, S1, D2, D1, map_app, <- !app_assoc. split; reflexivity.
Qed.

#[export] Instance mirrored_when_open_preorder : PreOrder mirrored_when_open.
Proof.
  split.
  - intros s Hs. split; [exact Hs | reflexivity].
  - intros a b c Hab Hbc Ha.
    destruct (Hab Ha) as [Hb Mab]. destruct (Hbc Hb) as [Hc Mbc].
    split; [exact Hc | transitivity b; assumption].
Qed.

(** A step that writes an entry at another level than DEBUG, or none,
    leaves the DEBUG messages as they are. *)
Ltac debug_primitive :=
  let st := fresh "st" in
  intros st; unfold preserved, debug_messages;
  first [ reflexivity
        | unfold logging, record_log; cbn [snd log];
          rewrite flat_map_app; cbn [flat_map List.app]; apply app_nil_r ].

Ltac debug_walk :=
  autounfold with methods;
  repeat
    match goal with
    | |- PreOrder _ => exact _
    | |- respects _ (bind _ _) => apply respects_bind; [ | | intro ]
    | |- respects _ (try_except _ _ _) =>
        apply respects_try_except; [ | | intro ]
    | |- respects _ (ret _) => apply respects_ret
    | |- respects _ (raise _) => apply respects_raise
    | |- respects _ (repeatM _ _) => apply respects_repeatM
    | |- respects _ (match ?x with _ => _ end) => destruct x
    | |- respects _ (let _ := _ in _) => cbv zeta
    | |- respects _ _ => debug_primitive
    end.

Lemma quiet_mirrored {A} (c : M A) :
  respects (preserved ws) c ->
  respects (preserved transport) c ->
  respects (preserved debug_messages) c ->
  respects mirrored_when_open c.
Proof.
  intros Hw Ht Hd st Hopen.
  specialize (Hw st). specialize (Ht st). specialize (Hd st).
  unfold preserved in Hw, Ht, Hd.
  split; [rewrite Hw; exact Hopen|].
  exists []. unfold sent. rewrite Ht, Hd. cbn [map].
  rewrite !app_nil_r. split; reflexivity.
Qed.

Section DebugLog.
Variable E : Env.

Lemma send_message_mirrored (func : pystr) (args : list value) :
  respects mirrored_when_open (send_message E func args).
Proof.
  intros st Hopen.
  destruct (ws st) as [c|] eqn:Hws; [|destruct (Hopen eq_refl)].
  rewrite (send_message_run E func args st c Hws). cbv zeta.
  assert (Hgoal :
            forall extra,
              (extra = [] \/ exists m, extra = [(ERROR, m)]) ->
              let s' :=
                mkState (request_header st) (ws st) (quote_session st)
                        (chart_session st) (drawn st) (http_calls st)
                        (transport st ++ [OpSend (create_message func args)])
                        ((log st
                          ++ [(DEBUG,
                               lit "Sending message: "
                               ++ create_message func args)])
                         ++ extra) in
              ws s' <> None /\ mirrored st s').
  { intros extra Hextra. cbv zeta. cbn [ws]. split; [rewrite Hws; discriminate|].
    exists [create_message func args].
    unfold sent, debug_messages. cbn [transport log map].
    rewrite !flat_map_app. cbn [flat_map List.app].
    split; [reflexivity|].
    destruct Hextra as [->|[m ->]]; cbn [flat_map List.app];
      rewrite !app_nil_r; reflexivity. }
  destruct (ws_send E (List.length (sent st)) (create_message func args)) as [e|];
    [destruct (isinstance e [ConnectionError; TimeoutError])|]; cbn [snd].
  - apply (Hgoal [(ERROR, lit "Failed to send message: " ++ exc_str e)]).
    right. eexists. reflexivity.
  - unfold record_op, record_log.
    cbn [request_header ws quote_session chart_session drawn http_calls
         transport log].
    rewrite <- (app_nil_r (log st ++ _)). apply (Hgoal []). left. reflexivity.
  - unfold record_op, record_log.
    cbn [request_header ws quote_session chart_session drawn http_calls
         transport log].
    rewrite <- (app_nil_r (log st ++ _)). apply (Hgoal []). left. reflexivity.
Qed.

Lemma _initialize_mirrored (tok : pystr) :
  respects mirrored_when_open (_initialize E tok).
Proof.
  unfold _initialize, _initialize_sessions.
  repeat
    match goal with
    | |- PreOrder _ => exact _
    | |- respects _ (bind _ _) => apply respects_bind; [ | | intro ]
    | |- respects _ (send_message _ _ _) => apply send_message_mirrored
    | |- respects mirrored_when_open _ =>
        apply quiet_mirrored; [walk | walk | debug_walk]
    end.
Qed.

Lemma choose_auth_token_debug (session_id : option pystr) :
  respects (preserved debug_messages) (choose_auth_token E session_id).
Proof. debug_walk. Qed.

(** X12. Whatever its outcome, a construction writes to the log, at the
    DEBUG level and in the order of the calls, every frame that it hands
    to [send], after the words [Sending message: ]: the frame of
    [set_auth_token], which carries the auth token, is among them.  It
    writes no other DEBUG entry. *)
Theorem construction_logs_frames (websocket_url : pystr)
        (session_id : option pystr) (st : State) :
  let st' := snd (StreamHandler E websocket_url session_id st) in
  exists frames,
    sent st' = sent st ++ frames
    /\ debug_messages st'
       = debug_messages st
         ++ map (fun m => lit "Sending message: " ++ m) frames.
Proof.
  cbv zeta. rewrite StreamHandler_run.
  change (mirrored st (snd (__init__ E websocket_url session_id (new_object st)))).
  destruct (choose_auth_token E session_id (new_object st)) as [[tok|e] s1] eqn:Htok.
  - pose proof (respects_at _ _ _ _ _ (choose_auth_token_transport E session_id) Htok) as T1.
    pose proof (respects_at _ _ _ _ _ (choose_auth_token_debug session_id) Htok) as D1.
    unfold preserved in T1, D1.
    assert (M1 : mirrored st s1).
    { exists []. unfold sent. rewrite T1, D1. cbn [map].
      rewrite !app_nil_r. split; reflexivity. }
    rewrite (__init___after_token E _ _ _ _ _ Htok).
    rewrite bind_set_request_header.
    rewrite (bind_get_request_header REQUEST_HEADER) by reflexivity.
    rewrite bind_create_connection.
    destruct (create_connection E websocket_url REQUEST_HEADER) as [e|].
    + cbn [snd]. transitivity s1; [exact M1|].
      exists []. unfold sent, debug_messages, record_op.
      cbn [transport log map]. rewrite flat_map_app. cbn [flat_map List.app].
      rewrite !app_nil_r. split; reflexivity.
    + rewrite bind_set_ws.
      match goal with
      | |- mirrored st (snd (_initialize E tok ?s0)) =>
          assert (M5 : mirrored s1 s0);
          [| destruct (_initialize_mirrored tok s0) as [_ M9];
             [cbn [ws]; discriminate|];
             transitivity s1; [exact M1|];
             transitivity s0; [exact M5 | exact M9] ]
      end.
      exists []. unfold sent, debug_messages, record_op.
      cbn [transport log map]. rewrite flat_map_app. cbn [flat_map List.app].
      rewrite !app_nil_r. split; reflexivity.
  - pose proof (respects_at _ _ _ _ _ (choose_auth_token_transport E session_id) Htok) as T1.
    pose proof (respects_at _ _ _ _ _ (choose_auth_token_debug session_id) Htok) as D1.
    unfold preserved in T1, D1.
    unfold __init__. rewrite (bind_raises_first _ _ _ _ _ Htok). cbn [snd].
    exists []. unfold sent. rewrite T1, D1. cbn [map].
    rewrite !app_nil_r. split; reflexivity.
Qed.

End DebugLog.

(* ================================================================== *)
(** ** Which exceptions leave the methods *)

Section Exceptions.
Variable E : Env.

(** X13. [_get_auth_token] lets no [RequestException] out: an exception
    that leaves it is the very one that the GET raised, and its class is
    not a [RequestException]. *)
Theorem get_auth_token_raises_only_foreign (s : pystr) (st : State) (e : exn) :
  fst (_get_auth_token E s st) = Raises e ->
  requests_get E disclaimer_url [(lit "sessionid", s)] = Raises e
  /\ isinstance e [RequestException] = false.
Proof.
  unfold _get_auth_token, try_except, bind, requests_get_call, raise_for_status.
  destruct (requests_get E disclaimer_url [(lit "sessionid", s)]) as [r|e'];
    cbn [fst snd].
  - destruct ((400 <=? status_code r) && (status_code r <? 500));
      [cbn; discriminate|].
    destruct ((500 <=? status_code r) && (status_code r <? 600));
      cbn; discriminate.
  - destruct (isinstance e' [RequestException]) eqn:Hexc; cbn [fst].
    + cbn. discriminate.
    + intros H. injection H as ->. split; [reflexivity | exact Hexc].
Qed.

Lemma choose_auth_token_returns (session_id : option pystr) (st : State) :
  (forall s e,
      session_id = Some s ->
      requests_get E disclaimer_url [(lit "sessionid", s)] = Raises e ->
      isinstance e [RequestException] = true) ->
  exists tok s1, choose_auth_token E session_id st = (Returns tok, s1).
Proof.
  intros Hget. unfold choose_auth_token.
  destruct session_id as [s|]; [destruct (truthy s)|];
    try (eexists; eexists; reflexivity).
  unfold _get_auth_token, try_except, bind, requests_get_call, raise_for_status.
  destruct (requests_get E disclaimer_url [(lit "sessionid", s)]) as [r|e] eqn:Hr;
    cbn [fst snd].
  - destruct ((400 <=? status_code r) && (status_code r <? 500));
      [cbn; eexists; eexists; reflexivity|].
    destruct ((500 <=? status_code r) && (status_code r <? 600));
      [cbn; eexists; eexists; reflexivity|].
    cbn [ret fst snd].
    destruct (re_search_auth_token (text r)) as [t|]; cbn [truthy_opt];
      [destruct (truthy t)|]; eexists; eexists; reflexivity.
  - rewrite (Hget s e eq_refl Hr). cbn. eexists; eexists; reflexivity.
Qed.

Lemma send_each_returns (calls : list (pystr * list value)) (st : State)
      (c : WebSocket) :
  (forall n m e,
      ws_send E n m = Some e ->
      isinstance e [ConnectionError; TimeoutError] = true) ->
  ws st = Some c ->
  exists s1, send_each E calls st = (Returns tt, s1).
Proof.
  intros Hsend. revert st.
  assert (Hone : forall f a st,
             ws st = Some c ->
             exists s1, send_message E f a st = (Returns tt, s1) /\ ws s1 = Some c).
  { intros f a st Hws.
    destruct (send_message E f a st) as [o s1] eqn:Hrun.
    destruct (send_message_returns E _ _ _ _ _ _ Hws Hrun) as [W1 _].
    rewrite (send_message_run E f a st c Hws) in Hrun. cbv zeta in Hrun.
    destruct (ws_send E (List.length (sent st)) (create_message f a)) as [e|] eqn:He.
    - rewrite (Hsend _ _ _ He) in Hrun.
      exists s1. split; [congruence | exact W1].
    - exists s1. split; [congruence | exact W1]. }
  induction calls as [|[f a] rest IH]; intros st Hws; cbn [send_each].
  - exists st. reflexivity.
  - destruct (Hone f a st Hws) as (s1 & Hrun & W1).
    destruct rest as [|r rest'].
    + exists s1. exact Hrun.
    + rewrite (bind_returns_first _ _ _ _ _ Hrun). apply IH. exact W1.
Qed.

(** X14. A construction returns as soon as the connection opens, the GET
    (if one is made) raises nothing but [RequestException]s, and [send]
    raises nothing but [ConnectionError]s and [TimeoutError]s: no failure
    of the token resolution and no failure of a [send] of these classes
    stops it, be it the failure of all six. *)
Theorem construction_returns (websocket_url : pystr)
        (session_id : option pystr) (st : State) :
  (forall s e,
      session_id = Some s ->
      requests_get E disclaimer_url [(lit "sessionid", s)] = Raises e ->
      isinstance e [RequestException] = true) ->
  create_connection E websocket_url REQUEST_HEADER = None ->
  (forall n m e,
      ws_send E n m = Some e ->
      isinstance e [ConnectionError; TimeoutError] = true) ->
  returned (fst (StreamHandler E websocket_url session_id st)) = true.
Proof.
  intros Hget Hconn Hsend. rewrite StreamHandler_run.
  destruct (choose_auth_token_returns session_id (new_object st) Hget)
    as (tok & s1 & Htok).
  rewrite (__init___after_token E _ _ _ _ _ Htok).
  rewrite bind_set_request_header.
  rewrite (bind_get_request_header REQUEST_HEADER) by reflexivity.
  rewrite bind_create_connection, Hconn, bind_set_ws.
  unfold _initialize.
  rewrite (bind_returns_first _ _ _ _ _ (generate_session_run E (lit "qs_") _)).
  rewrite (bind_returns_first _ _ _ _ _ (generate_session_run E (lit "cs_") _)).
  rewrite bind_logging, _initialize_sessions_as_send_each.
  match goal with
  | |- context [bind (send_each E ?calls) ?k0 ?s0] =>
      destruct (send_each_returns calls s0
                  (mkWebSocket websocket_url REQUEST_HEADER) Hsend eq_refl)
        as (s9 & Hrun)
  end.
  rewrite (bind_returns_first _ _ _ _ _ Hrun), set_sessions_run.
  reflexivity.
Qed.

End Exceptions.

Lemma get_auth_token_raises_only_foreign_witness :
  requests_get env_unicode disclaimer_url [(lit "sessionid", lit "s3ss10n")]
  = Raises cookie_not_latin1
  /\ isinstance cookie_not_latin1 [RequestException] = false.
Proof.
  exact (get_auth_token_raises_only_foreign env_unicode (lit "s3ss10n") world0
           cookie_not_latin1 eq_refl).
Defined.

(** Every [send] breaks the pipe and the GET times out: the construction
    returns all the same. *)
Lemma construction_returns_witness :
  returned (fst (StreamHandler env_broken_pipe wss_url (Some (lit "s3ss10n"))
                               world0))
  = true.
Proof.
  refine (construction_returns env_broken_pipe wss_url (Some (lit "s3ss10n"))
                               world0 _ eq_refl _).
  - intros s e _ H. cbn in H. injection H as <-. reflexivity.
  - intros n m e H. cbn in H. injection H as <-. reflexivity.
Defined.

(** The socket is closed: the first [send] raises, the construction
    fails and the handler has no session. *)
Lemma construction_calls_in_order_witness :
  quote_session (snd (StreamHandler env_closed wss_url None world0)) = None
  /\ chart_session (snd (StreamHandler env_closed wss_url None world0)) = None.
Proof.
  refine (proj2 (construction_calls_in_order env_closed wss_url None world0) _).
  vm_compute. reflexivity.
Defined.
